(** * express-jobly: the partial-update builder, the filtered list queries
      and the Company and Job models

    A shallow embedding of [helpers/sql.js], [models/company.js],
    [models/job.js] and of the PATCH handler of [routes/jobs.js], and the
    properties of them that the specification states.

    JavaScript values are modelled by [JsVal]; an object is the list of its
    own enumerable properties in the order [Object.keys] lists them, and a
    translation table or a schema's list of fields, which the code reads by
    name, also answers for the members that every object inherits.  The
    storage client [db] is an external collaborator: it is a parameter of
    every model operation, and each operation runs in a small state-and-error
    monad that threads the storage state and records the statements sent. *)

From Stdlib Require Import Ascii.
From stdpp Require Import base strings list gmap pretty.

Open Scope string_scope.
Open Scope list_scope.

(** ** JavaScript values *)

(** Numbers are the integers (the only numbers the filters and the schemas
    of this program speak about), of magnitude below 2^53, which a template
    literal prints in plain decimal; greater magnitudes, NaN, infinities and
    fractions are outside the model.  A string is held as the UTF-8 bytes
    of its text.  [JFun name] is a built-in function, such as the ones every
    object inherits. *)
#[warnings="-register-all"]
Inductive JsVal : Type :=
| JUndefined
| JNull
| JBool (b : bool)
| JNum (z : Z)
| JStr (s : string)
| JArr (items : list JsVal)
| JObj (props : list (string * JsVal))
| JFun (name : string).

Abbreviation JsObject := (list (string * JsVal)).

(** The double-quote character, as a one-character string. *)
Definition dq : string := String (Ascii.ascii_of_nat 34) EmptyString.

(** [Array.prototype.join] on an array of strings. *)
Fixpoint join (sep : string) (l : list string) : string :=
  match l with
  | [] => ""
  | [x] => x
  | x :: rest => x +:+ sep +:+ join sep rest
  end.

(** [ToString], as a template literal applies it to an interpolated value.
    An array prints its elements separated by commas, [null] and
    [undefined] elements as the empty string; a built-in function prints as
    Node prints it. *)
Fixpoint to_string (v : JsVal) : string :=
  match v with
  | JUndefined => "undefined"
  | JNull => "null"
  | JBool true => "true"
  | JBool false => "false"
  | JNum z => pretty z
  | JStr s => s
  | JArr items =>
      join "," ((fun x => match x with
                          | JUndefined | JNull => ""
                          | _ => to_string x
                          end) <$> items)
  | JObj _ => "[object Object]"
  | JFun name => "function " +:+ name +:+ "() { [native code] }"
  end.

(** [ToBoolean]: the falsy values are [undefined], [null], [false], [0]
    and the empty string. *)
Definition truthy (v : JsVal) : bool :=
  match v with
  | JUndefined | JNull => false
  | JBool b => b
  | JNum z => negb (z =? 0)%Z
  | JStr s => negb (String.eqb s "")
  | JArr _ | JObj _ | JFun _ => true
  end.

(** [a || b] *)
Definition js_or (a b : JsVal) : JsVal := if truthy a then a else b.

(** [v !== undefined] *)
Definition is_defined (v : JsVal) : bool :=
  match v with JUndefined => false | _ => true end.

(** [v === true] *)
Definition is_true (v : JsVal) : bool :=
  match v with JBool true => true | _ => false end.

(** [a > b] on two operands that are each a number or [undefined]
    ([None]): a comparison with [undefined] is false. *)
Definition js_gt (a b : option Z) : bool :=
  match a, b with
  | Some x, Some y => (y <? x)%Z
  | _, _ => false
  end.

(** [Object.keys] and [Object.values]. *)
Definition Object_keys (o : JsObject) : list string := o.*1.
Definition Object_values (o : JsObject) : list JsVal := o.*2.

(** [o[k]] on an object: [undefined] when there is no such property. *)
Fixpoint get_prop (o : JsObject) (k : string) : JsVal :=
  match o with
  | [] => JUndefined
  | (k', v) :: rest => if String.eqb k' k then v else get_prop rest k
  end.

(** [o[k] = v]: an existing property keeps its place, a new one goes last. *)
Fixpoint set_prop (k : string) (v : JsVal) (o : JsObject) : JsObject :=
  match o with
  | [] => [(k, v)]
  | (k', v') :: rest =>
      if String.eqb k' k then (k, v) :: rest else (k', v') :: set_prop k v rest
  end.

(** [delete o[k]] *)
Definition delete_prop (k : string) (o : JsObject) : JsObject :=
  filter (fun p => p.1 ≠ k) o.

(** What every object written as a literal inherits: the members of
    [Object.prototype], in the order Node lists them.  [constructor] is the
    function [Object] and [__proto__] reads as the prototype object
    itself. *)
Definition Object_prototype : JsObject :=
  [("constructor", JFun "Object");
   ("__defineGetter__", JFun "__defineGetter__");
   ("__defineSetter__", JFun "__defineSetter__");
   ("hasOwnProperty", JFun "hasOwnProperty");
   ("__lookupGetter__", JFun "__lookupGetter__");
   ("__lookupSetter__", JFun "__lookupSetter__");
   ("isPrototypeOf", JFun "isPrototypeOf");
   ("propertyIsEnumerable", JFun "propertyIsEnumerable");
   ("toString", JFun "toString");
   ("valueOf", JFun "valueOf");
   ("__proto__", JObj []);
   ("toLocaleString", JFun "toLocaleString")].

(** [k] names a member that every object inherits. *)
Definition inherited (k : string) : bool :=
  is_defined (get_prop Object_prototype k).

(** [t[k]] on a translation table written as an object literal: its own
    entry for [k] when it has one, else the member of that name that it
    inherits, else [undefined]. *)
Definition table_get (t : gmap string JsVal) (k : string) : JsVal :=
  match t !! k with
  | Some v => v
  | None => get_prop Object_prototype k
  end.

(** [s.includes(sub)] *)
Fixpoint includes (sub s : string) : bool :=
  String.prefix sub s ||
  match s with
  | EmptyString => false
  | String _ rest => includes sub rest
  end.

(** ** Errors *)

(** The error kinds of [expressError]; [message] is what the constructor
    was given, a string or an array of strings. *)
Inductive error : Type :=
| BadRequestError (message : JsVal)
| NotFoundError (message : JsVal)
| OtherError (e : JsVal).

(** The result is the not-found error. *)
Definition is_not_found {A : Type} (r : error + A) : bool :=
  match r with inl (NotFoundError _) => true | _ => false end.

(** ** helpers/sql.js *)

Record PartialUpdate : Type := { setCols : string; values : list JsVal }.

(** The arrow function mapped over the keys,
    [(colName, idx) => `"${jsToSql[colName] || colName}"=$${idx + 1}`]. *)
Definition assignment (jsToSql : gmap string JsVal) (idx : nat) (colName : string)
  : string :=
  dq +:+ to_string (js_or (table_get jsToSql colName) (JStr colName)) +:+ dq
     +:+ "=$" +:+ pretty (idx + 1).

Definition sqlForPartialUpdate (dataToUpdate : JsObject) (jsToSql : gmap string JsVal)
  : error + PartialUpdate :=
  let keys := Object_keys dataToUpdate in
  if (length keys =? 0)%nat then inl (BadRequestError (JStr "No data")) else
  let cols := imap (assignment jsToSql) keys in
  inr {| setCols := join ", " cols; values := Object_values dataToUpdate |}.

(** ** The storage collaborator and the monad of the model operations *)

(** [db.query(text, values)] answers with the rows of the result, or fails;
    [storage] is whatever state the storage engine keeps. *)
Record Db : Type := {
  storage : Type;
  run_query : string -> list JsVal -> storage -> (error + list JsObject) * storage
}.

(** The world an operation runs in: the storage state and the statements
    sent to it so far, oldest first. *)
Record World (db : Db) : Type := {
  store : storage db;
  sent : list (string * list JsVal)
}.
Arguments store {db} _.
Arguments sent {db} _.

Definition M (db : Db) (A : Type) : Type := World db -> (error + A) * World db.

#[global] Instance M_ret (db : Db) : MRet (M db) :=
  fun A (a : A) w => (inr a, w).

#[global] Instance M_bind (db : Db) : MBind (M db) :=
  fun A B (f : A -> M db B) (m : M db A) w =>
    match m w with
    | (inl e, w') => (inl e, w')
    | (inr a, w') => f a w'
    end.

(** [throw e] *)
Definition throw {db : Db} {A : Type} (e : error) : M db A :=
  fun w => (inl e, w).

(** An exception raised by a synchronous helper propagates. *)
Definition lift {db : Db} {A : Type} (r : error + A) : M db A :=
  match r with inl e => throw e | inr a => mret a end.

(** [(await db.query(text, values)).rows] *)
Definition db_query {db : Db} (text : string) (params : list JsVal)
  : M db (list JsObject) :=
  fun w =>
    let '(r, s) := run_query db text params (store w) in
    (r, {| store := s; sent := sent w ++ [(text, params)] |}).

(** ** The WHERE accumulator of the two [findAll] *)

Record Wheres : Type := {
  whereStatements : list string;
  whereValues : list JsVal
}.

Definition no_wheres : Wheres := {| whereStatements := []; whereValues := [] |}.

(** [whereValues.push(v)] *)
Definition push_value (v : JsVal) (w : Wheres) : Wheres :=
  {| whereStatements := whereStatements w; whereValues := whereValues w ++ [v] |}.

(** [whereStatements.push(stmt)], where [stmt] is a template over
    [whereValues.length]. *)
Definition push_statement (stmt : nat -> string) (w : Wheres) : Wheres :=
  {| whereStatements := whereStatements w ++ [stmt (length (whereValues w))];
     whereValues := whereValues w |}.

(** ** models/company.js *)

Module Company.

Record FilterOptions : Type := {
  minEmployees : option Z;
  maxEmployees : option Z;
  name : JsVal
}.

(** [filterOptions = {}] *)
Definition no_filter : FilterOptions :=
  {| minEmployees := None; maxEmployees := None; name := JUndefined |}.

Definition duplicate_check_sql : string :=
  "SELECT handle
           FROM companies
           WHERE handle = $1".

Definition insert_sql : string :=
  "INSERT INTO companies
           (handle, name, description, num_employees, logo_url)
           VALUES ($1, $2, $3, $4, $5)
           RETURNING handle, name, description, num_employees AS " +:+ dq +:+ "numEmployees" +:+ dq +:+ ", logo_url AS " +:+ dq +:+ "logoUrl" +:+ dq.

Definition select_sql : string :=
  "SELECT handle,
                  name,
                  description,
                  num_employees AS " +:+ dq +:+ "numEmployees" +:+ dq +:+ ",
                  logo_url AS " +:+ dq +:+ "logoUrl" +:+ dq +:+ "
           FROM companies
           ".

Definition get_sql : string :=
  "SELECT handle,
                  name,
                  description,
                  num_employees AS " +:+ dq +:+ "numEmployees" +:+ dq +:+ ",
                  logo_url AS " +:+ dq +:+ "logoUrl" +:+ dq +:+ "
           FROM companies
           WHERE handle = $1".

Definition get_jobs_sql : string :=
  "
			SELECT  id,
					title, 
					salary,
					equity
			FROM jobs
			WHERE company_handle = $1
			ORDER BY id
			".

Definition update_sql (setCols handleVarIdx : string) : string :=
  "UPDATE companies 
                      SET " +:+ setCols +:+ " 
                      WHERE handle = " +:+ handleVarIdx +:+ " 
                      RETURNING handle, 
                                name, 
                                description, 
                                num_employees AS " +:+ dq +:+ "numEmployees" +:+ dq +:+ ", 
                                logo_url AS " +:+ dq +:+ "logoUrl" +:+ dq.

Definition remove_sql : string :=
  "DELETE
           FROM companies
           WHERE handle = $1
           RETURNING handle".

(** The accumulation of [whereStatements] and [whereValues] (the three
    independent [if]s of [findAll]). *)
Definition wheres (filterOptions : FilterOptions) : Wheres :=
  let w := no_wheres in
  let w :=
    match minEmployees filterOptions with
    | Some n =>
        push_statement (fun len => "num_employees >= $" +:+ pretty len) (push_value (JNum n) w)
    | None => w
    end in
  let w :=
    match maxEmployees filterOptions with
    | Some n =>
        push_statement (fun len => "num_employees <= $" +:+ pretty len) (push_value (JNum n) w)
    | None => w
    end in
  let w :=
    if truthy (name filterOptions) then
      push_statement (fun len => "name ILIKE $" +:+ pretty len)
        (push_value (JStr ("%" +:+ to_string (name filterOptions) +:+ "%")) w)
    else w in
  w.

(** The statement and bind values that [findAll] sends, or the error it
    throws before building them. *)
Definition findAll_query (filterOptions : FilterOptions)
  : error + (string * list JsVal) :=
  let mainQuery := select_sql in
  if js_gt (minEmployees filterOptions) (maxEmployees filterOptions) then
    inl (BadRequestError
           (JStr "Minimum number of employees must not be greater than maximum!"))
  else
  let w := wheres filterOptions in
  let mainQuery :=
    if (0 <? length (whereStatements w))%nat then
      let wheresToAdd := join " AND " (whereStatements w) in
      mainQuery +:+ " WHERE " +:+ wheresToAdd
    else mainQuery in
  let mainQuery := mainQuery +:+ "ORDER BY name" in
  inr (mainQuery, whereValues w).

(** The translation table that [update] gives the builder. *)
Definition jsToSql : gmap string JsVal :=
  <["numEmployees" := JStr "num_employees"]> (<["logoUrl" := JStr "logo_url"]> ∅).

Section WithDb.
Context {db : Db}.

Definition create (handle name description numEmployees logoUrl : JsVal)
  : M db JsVal :=
  duplicateCheck ← db_query duplicate_check_sql [handle];
  match duplicateCheck !! 0%nat with
  | Some _ => throw (BadRequestError (JStr ("Duplicate company: " +:+ to_string handle)))
  | None =>
      result ← db_query insert_sql [handle; name; description; numEmployees; logoUrl];
      let company := match result !! 0%nat with
                     | Some row => JObj row
                     | None => JUndefined
                     end in
      mret company
  end.

Definition findAll (filterOptions : FilterOptions) : M db (list JsObject) :=
  '(mainQuery, whereValues) ← lift (findAll_query filterOptions);
  companies ← db_query mainQuery whereValues;
  mret companies.

Definition get (handle : JsVal) : M db JsObject :=
  companyRes ← db_query get_sql [handle];
  match companyRes !! 0%nat with
  | None => throw (NotFoundError (JStr ("No company: " +:+ to_string handle)))
  | Some company =>
      jobRes ← db_query get_jobs_sql [handle];
      mret (set_prop "jobs" (JArr (JObj <$> jobRes)) company)
  end.

Definition update (handle : JsVal) (data : JsObject) : M db JsObject :=
  r ← lift (sqlForPartialUpdate data jsToSql);
  let handleVarIdx := "$" +:+ pretty (length (values r) + 1) in
  let querySql := update_sql (setCols r) handleVarIdx in
  result ← db_query querySql (values r ++ [handle]);
  match result !! 0%nat with
  | None => throw (NotFoundError (JStr ("No company: " +:+ to_string handle)))
  | Some company => mret company
  end.

Definition remove (handle : JsVal) : M db unit :=
  result ← db_query remove_sql [handle];
  match result !! 0%nat with
  | None => throw (NotFoundError (JStr ("No company: " +:+ to_string handle)))
  | Some company => mret tt
  end.

End WithDb.

End Company.

(** ** models/job.js *)

Module Job.

Record FilterOptions : Type := {
  title : JsVal;
  minSalary : JsVal;
  hasEquity : JsVal
}.

(** [filterOptions = {}] *)
Definition no_filter : FilterOptions :=
  {| title := JUndefined; minSalary := JUndefined; hasEquity := JUndefined |}.

Definition insert_sql : string :=
  "
            INSERT INTO jobs (title, salary, equity, company_handle)
            VALUES ($1, $2, $3, $4)
            RETURNING id, title, salary, equity, company_handle AS " +:+ dq +:+ "companyHandle" +:+ dq +:+ "
        ".

Definition select_sql : string :=
  "SELECT j.id, j.title, j.salary, j.equity, j.company_handle as " +:+ dq +:+ "companyHandle" +:+ dq +:+ ", c.name AS " +:+ dq +:+ "companyName" +:+ dq +:+ "
        FROM jobs j 
        LEFT JOIN companies AS c
        ON c.handle = j.company_handle ".

Definition get_sql : string :=
  "SELECT id,
                  title,
                  salary,
                  equity,
                  company_handle AS " +:+ dq +:+ "companyHandle" +:+ dq +:+ "
           FROM jobs
           WHERE id = $1".

Definition get_company_sql : string :=
  "SELECT handle,
                    name,
                    description,
                    num_employees AS " +:+ dq +:+ "numEmployees" +:+ dq +:+ ",
                    logo_url AS " +:+ dq +:+ "logoUrl" +:+ dq +:+ "
            FROM companies
            WHERE handle = $1".

Definition update_sql (setCols idVarIdx : string) : string :=
  "UPDATE jobs
                      SET " +:+ setCols +:+ " 
                      WHERE id = " +:+ idVarIdx +:+ " 
                      RETURNING id, 
                                title, 
                                salary, 
                                equity, 
                                company_handle AS " +:+ dq +:+ "companyHandle" +:+ dq.

Definition remove_sql : string :=
  "DELETE
           FROM jobs
           WHERE id = $1
           RETURNING id".

Definition wheres (filterOptions : FilterOptions) : Wheres :=
  let w := no_wheres in
  let w :=
    if is_defined (minSalary filterOptions) then
      push_statement (fun len => "salary >= $" +:+ pretty len)
        (push_value (minSalary filterOptions) w)
    else w in
  let w :=
    if is_true (hasEquity filterOptions) then
      push_statement (fun _ => "equity > 0") w
    else w in
  let w :=
    if is_defined (title filterOptions) then
      push_statement (fun len => "title ILIKE $" +:+ pretty len)
        (push_value (JStr ("%" +:+ to_string (title filterOptions) +:+ "%")) w)
    else w in
  w.

(** The statement and bind values that [findAll] sends. *)
Definition findAll_query (filterOptions : FilterOptions) : string * list JsVal :=
  let mainQuery := select_sql in
  let w := wheres filterOptions in
  let mainQuery :=
    if (0 <? length (whereStatements w))%nat then
      let wheresToAdd := join " AND " (whereStatements w) in
      mainQuery +:+ " WHERE " +:+ wheresToAdd +:+ " "
    else mainQuery in
  let mainQuery := mainQuery +:+ "ORDER BY title" in
  (mainQuery, whereValues w).

Section WithDb.
Context {db : Db}.

Definition create (title salary equity companyHandle : JsVal) : M db JsVal :=
  result ← db_query insert_sql [title; salary; equity; companyHandle];
  let job := match result !! 0%nat with
             | Some row => JObj row
             | None => JUndefined
             end in
  mret job.

Definition findAll (filterOptions : FilterOptions) : M db (list JsObject) :=
  let '(mainQuery, whereValues) := findAll_query filterOptions in
  jobs ← db_query mainQuery whereValues;
  mret jobs.

Definition get (id : JsVal) : M db JsObject :=
  jobRes ← db_query get_sql [id];
  match jobRes !! 0%nat with
  | None => throw (NotFoundError (JStr ("No job: " +:+ to_string id)))
  | Some job =>
      companyRes ← db_query get_company_sql [get_prop job "companyHandle"];
      let job := delete_prop "companyHandle" job in
      let job := set_prop "company"
                   (match companyRes !! 0%nat with
                    | Some row => JObj row
                    | None => JUndefined
                    end) job in
      mret job
  end.

Definition update (id : JsVal) (data : JsObject) : M db JsObject :=
  r ← lift (sqlForPartialUpdate data ∅);
  let idVarIdx := "$" +:+ pretty (length (values r) + 1) in
  let querySql := update_sql (setCols r) idVarIdx in
  result ← db_query querySql (values r ++ [id]);
  match result !! 0%nat with
  | None => throw (NotFoundError (JStr ("Job not found: " +:+ to_string id)))
  | Some job => mret job
  end.

Definition remove (id : JsVal) : M db unit :=
  result ← db_query remove_sql [id];
  match result !! 0%nat with
  | None => throw (NotFoundError (JStr ("No job: " +:+ to_string id)))
  | Some job => mret tt
  end.

End WithDb.

End Job.

(** ** The validation gate in front of PATCH /jobs/:id *)

(** Modelled from the spec: the validation collaborator ([jsonschema],
    an external library).  A schema lists its required fields, a test per
    known field (type, length bounds, minimum, pattern) and whether unknown
    fields are rejected; the verdict comes with one message per failure.
    The library decides that a field of the instance is known by reading
    [schema.properties[field]], and the schema's [properties] is an object
    written as a literal: a field that names an inherited member counts as
    known, whatever the schema lists.  The wording of the messages is the
    library's own and is not specified: only their number matters here. *)
Record Schema : Type := {
  required : list string;
  properties : list (string * (JsVal -> bool));
  additionalProperties : bool
}.

Record ValidatorResult : Type := { valid : bool; errors : list string }.

(** [k in o] for an own property. *)
Definition has_prop (o : JsObject) (k : string) : bool :=
  existsb (String.eqb k) (Object_keys o).

(** [schema.properties[k] !== undefined] *)
Definition known_property (schema : Schema) (k : string) : bool :=
  existsb (String.eqb k) (properties schema).*1 || inherited k.

Definition validate (instance : JsObject) (schema : Schema) : ValidatorResult :=
  let missing : list string :=
    (fun k => "instance requires property " +:+ k)
      <$> filter (fun k => has_prop instance k = false) (required schema) in
  let invalid : list string :=
    (fun p : string * (JsVal -> bool) => "instance." +:+ p.1 +:+ " does not meet its schema")
      <$> filter (fun p => has_prop instance p.1 = true
                           ∧ p.2 (get_prop instance p.1) = false) (properties schema) in
  let unknown : list string :=
    if additionalProperties schema then []
    else (fun k => "instance is not allowed to have the additional property " +:+ k)
           <$> filter (fun k => known_property schema k = false)
                 (Object_keys instance) in
  let errs := missing ++ invalid ++ unknown in
  {| valid := (length errs =? 0)%nat; errors := errs |}.

(** The per-field tests of [schemas/jobNew.json]. *)

(** The number of characters of a text held as UTF-8 bytes: the bytes
    that do not continue a character.  The length bounds of a schema count
    characters. *)
Fixpoint char_length (s : string) : nat :=
  match s with
  | EmptyString => 0
  | String c rest =>
      let n := Ascii.nat_of_ascii c in
      ((if (128 <=? n)%nat && (n <? 192)%nat then 0 else 1) + char_length rest)%nat
  end.

(** [title]: a string of at least 1 character. *)
Definition title_schema (v : JsVal) : bool :=
  match v with JStr s => (1 <=? char_length s)%nat | _ => false end.

(** [salary]: an integer, at least 0. *)
Definition salary_schema (v : JsVal) : bool :=
  match v with JNum z => (0 <=? z)%Z | _ => false end.

Definition is_digit (c : Ascii.ascii) : bool :=
  let n := Ascii.nat_of_ascii c in (48 <=? n)%nat && (n <=? 57)%nat.

(** A dot followed by a digit occurs somewhere in [s]. *)
Fixpoint has_dot_digit (s : string) : bool :=
  match s with
  | String c (String d _ as rest) =>
      (Ascii.eqb c "."%char && is_digit d) || has_dot_digit rest
  | _ => false
  end.

(** [equity]: a string in which the pattern [0|(0?\.[0-9]+)] matches
    somewhere (the pattern is not anchored). *)
Definition equity_schema (v : JsVal) : bool :=
  match v with JStr s => includes "0" s || has_dot_digit s | _ => false end.

(** Modelled from the spec: [schemas/jobUpdate.json] is not among the
    sources.  The job-update shape has all fields optional, the same
    constraints as job-create on title, salary and equity, and rejects
    unknown fields. *)
Definition jobUpdateSchema : Schema :=
  {| required := [];
     properties := [("title", title_schema); ("salary", salary_schema);
                    ("equity", equity_schema)];
     additionalProperties := false |}.

(** [companyHandle] in [schemas/jobNew.json]: a string of 1 to 25
    characters. *)
Definition companyHandle_schema (v : JsVal) : bool :=
  match v with
  | JStr s => (1 <=? char_length s)%nat && (char_length s <=? 25)%nat
  | _ => false
  end.

(** [schemas/jobNew.json]: title and companyHandle are required, unknown
    fields are rejected. *)
Definition jobNewSchema : Schema :=
  {| required := ["title"; "companyHandle"];
     properties := [("companyHandle", companyHandle_schema); ("salary", salary_schema);
                    ("title", title_schema); ("equity", equity_schema)];
     additionalProperties := false |}.

(** What [schemas/jobNew.json] asks of a body, field by field: title and
    companyHandle are there and pass their tests, salary and equity pass
    theirs when they are there, and every other field names an inherited
    member. *)
Definition meets_jobNew (o : JsObject) : Prop :=
  has_prop o "title" = true
  /\ has_prop o "companyHandle" = true
  /\ title_schema (get_prop o "title") = true
  /\ companyHandle_schema (get_prop o "companyHandle") = true
  /\ (has_prop o "salary" = true -> salary_schema (get_prop o "salary") = true)
  /\ (has_prop o "equity" = true -> equity_schema (get_prop o "equity") = true)
  /\ (forall k : string,
        has_prop o k = true ->
        k = "companyHandle" \/ k = "salary" \/ k = "title" \/ k = "equity"
        \/ inherited k = true).

(** What a handler answers: the status code and the JSON body. *)
Record Response : Type := { status : nat; json : JsVal }.

(** ** routes/jobs.js: PATCH /jobs/:id *)

Record Request : Type := {
  headers : JsObject;
  params_id : JsVal;
  body : JsObject
}.

Module JobsRoutes.
Section WithDb.
Context {db : Db}.

(** The middleware [ensureIsAdmin] is not among the sources: it is a
    parameter that either lets the request through ([None]) or hands an
    error to [next]. *)
Context (ensureIsAdmin : Request -> option error).

(** The result is the error handed to [next], or the JSON of the
    response. *)
Definition patch (req : Request) : M db JsVal :=
  match ensureIsAdmin req with
  | Some err => throw err
  | None =>
      let validator := validate (body req) jobUpdateSchema in
      if negb (valid validator) then
        let errs := JStr <$> errors validator in
        throw (BadRequestError (JArr errs))
      else
        job ← Job.update (params_id req) (body req);
        mret (JObj [("job", JObj job)])
  end.

(** POST /jobs: [Job.create(req.body)] destructures the four fields out
    of the body. *)
Definition post (req : Request) : M db Response :=
  match ensureIsAdmin req with
  | Some err => throw err
  | None =>
      let validator := validate (body req) jobNewSchema in
      if negb (valid validator) then
        let errs := JStr <$> errors validator in
        throw (BadRequestError (JArr errs))
      else
        job ← Job.create (get_prop (body req) "title") (get_prop (body req) "salary")
                (get_prop (body req) "equity") (get_prop (body req) "companyHandle");
        mret {| status := 201; json := JObj [("job", job)] |}
  end.

(** GET /jobs/:id, which has no admin check. *)
Definition get (req : Request) : M db Response :=
  job ← Job.get (params_id req);
  mret {| status := 200; json := JObj [("job", JObj job)] |}.

(** DELETE /jobs/:id *)
Definition delete (req : Request) : M db Response :=
  match ensureIsAdmin req with
  | Some err => throw err
  | None =>
      _ ← Job.remove (params_id req);
      mret {| status := 200; json := JObj [("deleted", params_id req)] |}
  end.

End WithDb.
End JobsRoutes.

(** ** Storage instances used to run the operations on concrete inputs *)

(** A storage that answers every statement with the same rows. *)
Definition fixed_db (answer : list JsObject) : Db :=
  {| storage := unit; run_query := fun _ _ s => (inr answer, s) |}.

(** The world before any statement was sent. *)
Definition initial (db : Db) (s : storage db) : World db :=
  {| store := s; sent := [] |}.

(** A storage that fails every statement with the same error. *)
Definition failing_db (e : error) : Db :=
  {| storage := unit; run_query := fun _ _ s => (inl e, s) |}.

(** An operation only appends to the statements sent, and at most [n] of
    them. *)
Definition sends_at_most {db : Db} {A : Type} (n : nat) (m : M db A) : Prop :=
  forall w : World db,
    exists l : list (string * list JsVal),
      sent (m w).2 = sent w ++ l /\ (length l <= n)%nat.

(** * Properties *)

(** ** Evaluation lemmas *)

Lemma length_Object_keys (o : JsObject) : length (Object_keys o) = length o.
Proof. unfold Object_keys. apply length_fmap. Qed.

Lemma length_Object_values (o : JsObject) : length (Object_values o) = length o.
Proof. unfold Object_values. apply length_fmap. Qed.

Lemma sqlForPartialUpdate_nil (jsToSql : gmap string JsVal) :
  sqlForPartialUpdate [] jsToSql = inl (BadRequestError (JStr "No data")).
Proof. reflexivity. Qed.

Lemma sqlForPartialUpdate_nonempty (data : JsObject) (jsToSql : gmap string JsVal) :
  data ≠ [] ->
  sqlForPartialUpdate data jsToSql
  = inr {| setCols := join ", " (imap (assignment jsToSql) (Object_keys data));
           values := Object_values data |}.
Proof. destruct data as [|[k v] rest]; [congruence | reflexivity]. Qed.

Lemma truthy_JStr (s : string) : s ≠ "" -> truthy (JStr s) = true.
Proof.
  intros Hs. simpl. destruct (String.eqb_spec s ""); [contradiction | reflexivity].
Qed.

Lemma is_defined_false (v : JsVal) : is_defined v = false -> v = JUndefined.
Proof. destruct v; simpl; congruence. Qed.

Lemma table_get_absent (jsToSql : gmap string JsVal) (field : string) :
  jsToSql !! field = None -> inherited field = false ->
  table_get jsToSql field = JUndefined.
Proof.
  intros H Hi. unfold table_get. rewrite H. apply is_defined_false. exact Hi.
Qed.

Lemma column_absent (jsToSql : gmap string JsVal) (field : string) :
  jsToSql !! field = None -> inherited field = false ->
  to_string (js_or (table_get jsToSql field) (JStr field)) = field.
Proof. intros H Hi. rewrite (table_get_absent _ _ H Hi). reflexivity. Qed.

Lemma column_present (jsToSql : gmap string JsVal) (field c : string) :
  jsToSql !! field = Some (JStr c) -> c ≠ "" ->
  to_string (js_or (table_get jsToSql field) (JStr field)) = c.
Proof.
  intros H Hc. unfold table_get, js_or. rewrite H.
  rewrite truthy_JStr by assumption. reflexivity.
Qed.

Lemma bind_lift_inr {db : Db} {A B : Type} (a : A) (k : A -> M db B) (w : World db) :
  (lift (inr a) ≫= k) w = k a w.
Proof. reflexivity. Qed.

Lemma bind_db_query {db : Db} {A : Type} (text : string) (params : list JsVal)
    (k : list JsObject -> M db A) (w : World db) :
  (db_query text params ≫= k) w
  = match run_query db text params (store w) with
    | (inl e, s) => (inl e, {| store := s; sent := sent w ++ [(text, params)] |})
    | (inr rows, s) => k rows {| store := s; sent := sent w ++ [(text, params)] |}
    end.
Proof.
  unfold mbind, M_bind, db_query.
  destruct (run_query db text params (store w)) as [[e | rows] s]; reflexivity.
Qed.

(** ** The partial-update builder *)

(** C1: the claim does not hold of the code for a field that the table
    does not list and whose name is that of a member every object inherits:
    [jsToSql[colName]] then reads the inherited member, which is truthy, and
    the fragment quotes the member as printed instead of the field's own
    name.  So it is with [constructor] and the empty table of [Job.update],
    and with [toString] and the table of [Company.update]. *)
Lemma C1_inherited_member_is_quoted_as_column :
  sqlForPartialUpdate [("constructor", JNum 1)] ∅
  = inr {| setCols := dq +:+ "function Object() { [native code] }" +:+ dq +:+ "=$1";
           values := [JNum 1] |}
  /\ sqlForPartialUpdate [("name", JStr "New"); ("toString", JStr "x")]
       Company.jsToSql
     = inr {| setCols := dq +:+ "name" +:+ dq +:+ "=$1, "
                         +:+ dq +:+ "function toString() { [native code] }" +:+ dq
                         +:+ "=$2";
              values := [JStr "New"; JStr "x"] |}.
Proof. split; vm_compute; reflexivity. Qed.

(** X18: what does hold of the builder.  On a non-empty field mapping it
    returns the fragments joined by a comma and a space; there is one
    fragment per input field, in the order of the mapping's keys; the
    fragment of the field at index [i] is the quoted column, an equals sign
    and the placeholder of position [i + 1], which is the 1-based position
    of the field's value in the returned values; the column is the table's
    entry when that is a non-empty string, and the field's own name when the
    table has no entry and the name is not that of an inherited member.  The
    two examples of the builder's tests evaluate as the tests expect. *)
Theorem X18_fragments_follow_the_keys
    (dataToUpdate : JsObject) (jsToSql : gmap string JsVal) :
  dataToUpdate ≠ [] ->
  (exists (r : PartialUpdate) (cols : list string),
      sqlForPartialUpdate dataToUpdate jsToSql = inr r
      /\ setCols r = join ", " cols
      /\ length cols = length dataToUpdate
      /\ length (values r) = length dataToUpdate
      /\ forall (i : nat) (field : string) (v : JsVal),
           dataToUpdate !! i = Some (field, v) ->
           values r !! i = Some v
           /\ exists column : string,
                cols !! i = Some (dq +:+ column +:+ dq +:+ "=$" +:+ pretty (i + 1))
                /\ (jsToSql !! field = None -> inherited field = false ->
                    column = field)
                /\ (forall c : string,
                      jsToSql !! field = Some (JStr c) -> c ≠ "" -> column = c))
  /\ sqlForPartialUpdate [("keyName", JStr "val")] {["keyName" := JStr "key_name"]}
     = inr {| setCols := dq +:+ "key_name" +:+ dq +:+ "=$1"; values := [JStr "val"] |}
  /\ sqlForPartialUpdate
       [("keyOne", JStr "val1"); ("keyTwo", JStr "val2"); ("keyThree", JStr "val3")]
       (<["keyOne" := JStr "key_one"]>
          (<["keyTwo" := JStr "key_two"]> {["keyThree" := JStr "key_three"]}))
     = inr {| setCols := dq +:+ "key_one" +:+ dq +:+ "=$1, "
                         +:+ dq +:+ "key_two" +:+ dq +:+ "=$2, "
                         +:+ dq +:+ "key_three" +:+ dq +:+ "=$3";
              values := [JStr "val1"; JStr "val2"; JStr "val3"] |}.
Proof.
  intros Hne. split; [| split; vm_compute; reflexivity].
  exists {| setCols := join ", " (imap (assignment jsToSql) (Object_keys dataToUpdate));
            values := Object_values dataToUpdate |},
    (imap (assignment jsToSql) (Object_keys dataToUpdate)).
  split; [apply sqlForPartialUpdate_nonempty; assumption |].
  split; [reflexivity |].
  split; [rewrite length_imap; apply length_Object_keys |].
  split; [apply length_Object_values |].
  intros i field v Hi. simpl. split.
  - unfold Object_values. rewrite list_lookup_fmap, Hi. reflexivity.
  - exists (to_string (js_or (table_get jsToSql field) (JStr field))). split.
    + rewrite list_lookup_imap. unfold Object_keys.
      rewrite list_lookup_fmap, Hi. reflexivity.
    + split; [apply column_absent | apply column_present].
Qed.

Lemma X18_fragments_follow_the_keys_witness :
  let dataToUpdate := [("firstName", JStr "Aliya"); ("age", JNum 32)] in
  let jsToSql : gmap string JsVal := {["firstName" := JStr "first_name"]} in
  dataToUpdate ≠ []
  /\ (exists (r : PartialUpdate) (cols : list string),
         sqlForPartialUpdate dataToUpdate jsToSql = inr r
         /\ setCols r = join ", " cols
         /\ length cols = length dataToUpdate
         /\ length (values r) = length dataToUpdate
         /\ forall (i : nat) (field : string) (v : JsVal),
              dataToUpdate !! i = Some (field, v) ->
              values r !! i = Some v
              /\ exists column : string,
                   cols !! i = Some (dq +:+ column +:+ dq +:+ "=$" +:+ pretty (i + 1))
                   /\ (jsToSql !! field = None -> inherited field = false ->
                       column = field)
                   /\ (forall c : string,
                         jsToSql !! field = Some (JStr c) -> c ≠ "" -> column = c)).
Proof.
  split; [discriminate |].
  apply (X18_fragments_follow_the_keys
           [("firstName", JStr "Aliya"); ("age", JNum 32)]
           {["firstName" := JStr "first_name"]}).
  discriminate.
Defined.

(** C2: the builder fails with the bad-request error on the empty field
    mapping, whatever the table; [Company.update] and [Job.update] on an
    empty partial-data object fail with that error and leave the world as
    it was, so no statement was sent to storage; and the builder accepts
    every non-empty mapping whatever its values are, and returns the values
    as they came. *)
Theorem C2_empty_update_is_bad_request :
  (forall jsToSql : gmap string JsVal,
      sqlForPartialUpdate [] jsToSql = inl (BadRequestError (JStr "No data")))
  /\ (forall (db : Db) (handle : JsVal) (w : World db),
        Company.update handle [] w = (inl (BadRequestError (JStr "No data")), w))
  /\ (forall (db : Db) (id : JsVal) (w : World db),
        Job.update id [] w = (inl (BadRequestError (JStr "No data")), w))
  /\ (forall (field : string) (v : JsVal) (rest : JsObject)
             (jsToSql : gmap string JsVal),
        exists r : PartialUpdate,
          sqlForPartialUpdate ((field, v) :: rest) jsToSql = inr r
          /\ values r = v :: Object_values rest).
Proof.
  repeat split.
  intros field v rest jsToSql. eexists. split; reflexivity.
Qed.

(** ** The filtered list queries *)

(** The fragment list and the value list of the company filter, criterion
    by criterion. *)
Lemma Company_wheres_parts (f : Company.FilterOptions) :
  Company.wheres f
  = let vmin := match Company.minEmployees f with
                | Some n => [JNum n] | None => [] end in
    let vmax := match Company.maxEmployees f with
                | Some n => [JNum n] | None => [] end in
    {| whereStatements :=
         match Company.minEmployees f with
         | Some _ => ["num_employees >= $1"] | None => [] end
         ++ match Company.maxEmployees f with
            | Some _ => ["num_employees <= $" +:+ pretty (length vmin + 1)]
            | None => [] end
         ++ (if truthy (Company.name f)
             then ["name ILIKE $" +:+ pretty (length vmin + length vmax + 1)]
             else []);
       whereValues :=
         vmin ++ vmax
         ++ (if truthy (Company.name f)
             then [JStr ("%" +:+ to_string (Company.name f) +:+ "%")]
             else []) |}.
Proof.
  unfold Company.wheres.
  destruct (Company.minEmployees f), (Company.maxEmployees f),
    (truthy (Company.name f)); reflexivity.
Qed.

Lemma Job_wheres_parts (f : Job.FilterOptions) :
  Job.wheres f
  = let vsal := if is_defined (Job.minSalary f) then [Job.minSalary f] else [] in
    {| whereStatements :=
         (if is_defined (Job.minSalary f) then ["salary >= $1"] else [])
         ++ (if is_true (Job.hasEquity f) then ["equity > 0"] else [])
         ++ (if is_defined (Job.title f)
             then ["title ILIKE $" +:+ pretty (length vsal + 1)]
             else []);
       whereValues :=
         vsal
         ++ (if is_defined (Job.title f)
             then [JStr ("%" +:+ to_string (Job.title f) +:+ "%")]
             else []) |}.
Proof.
  unfold Job.wheres.
  destruct (is_defined (Job.minSalary f)), (is_true (Job.hasEquity f)),
    (is_defined (Job.title f)); reflexivity.
Qed.

Lemma is_true_spec (v : JsVal) : is_true v = true <-> v = JBool true.
Proof.
  split; [| intros ->; reflexivity].
  destruct v as [| | [|] | | | | |]; simpl; congruence.
Qed.

(** C3: when [minEmployees] is greater than [maxEmployees],
    [Company.findAll] fails with the bad-request error whatever the name
    criterion is; no statement and no bind value is built, and the world is
    left as it was. *)
Theorem C3_min_above_max_is_bad_request
    (db : Db) (f : Company.FilterOptions) (lo hi : Z) (w : World db) :
  Company.minEmployees f = Some lo ->
  Company.maxEmployees f = Some hi ->
  (hi < lo)%Z ->
  Company.findAll_query f
  = inl (BadRequestError
           (JStr "Minimum number of employees must not be greater than maximum!"))
  /\ Company.findAll f w
     = (inl (BadRequestError
               (JStr "Minimum number of employees must not be greater than maximum!")),
        w).
Proof.
  intros Hlo Hhi Hlt.
  assert (Hq : Company.findAll_query f
               = inl (BadRequestError
                        (JStr "Minimum number of employees must not be greater than maximum!"))).
  { unfold Company.findAll_query, js_gt. rewrite Hlo, Hhi.
    destruct (Z.ltb_spec hi lo); [reflexivity | lia]. }
  split; [exact Hq |].
  unfold Company.findAll. rewrite Hq. reflexivity.
Qed.

Lemma C3_min_above_max_is_bad_request_witness :
  let f := {| Company.minEmployees := Some 10%Z;
              Company.maxEmployees := Some 2%Z;
              Company.name := JStr "net" |} in
  (2 < 10)%Z
  /\ Company.findAll f (initial (fixed_db []) tt)
     = (inl (BadRequestError
               (JStr "Minimum number of employees must not be greater than maximum!")),
        initial (fixed_db []) tt).
Proof.
  split; [lia |].
  apply (C3_min_above_max_is_bad_request (fixed_db []) _ 10 2);
    [reflexivity | reflexivity | lia].
Defined.

(** C4: in [Job.findAll] the criterion [hasEquity] never adds a bind
    value; when it is the boolean [true] the fragment [equity > 0] stands
    between the salary fragment and the title fragment, and with every other
    value the fragments, and the statement sent, are those of the same
    filter without [hasEquity]. *)
Theorem C4_hasEquity_fragment (f : Job.FilterOptions) :
  let f0 := {| Job.title := Job.title f; Job.minSalary := Job.minSalary f;
               Job.hasEquity := JUndefined |} in
  let salary_only := {| Job.title := JUndefined; Job.minSalary := Job.minSalary f;
                        Job.hasEquity := JUndefined |} in
  whereValues (Job.wheres f) = whereValues (Job.wheres f0)
  /\ (Job.hasEquity f = JBool true ->
      exists title_part : list string,
        whereStatements (Job.wheres f0)
        = whereStatements (Job.wheres salary_only) ++ title_part
        /\ whereStatements (Job.wheres f)
           = whereStatements (Job.wheres salary_only)
             ++ "equity > 0" :: title_part)
  /\ (Job.hasEquity f ≠ JBool true ->
      Job.wheres f = Job.wheres f0
      /\ Job.findAll_query f = Job.findAll_query f0).
Proof.
  intros f0 salary_only. rewrite !Job_wheres_parts. subst f0 salary_only. simpl.
  split; [reflexivity |]. split.
  - intros ->. simpl.
    destruct (is_defined (Job.minSalary f)), (is_defined (Job.title f));
      eexists; split; reflexivity.
  - intros Hne.
    assert (Hf : is_true (Job.hasEquity f) = false).
    { destruct (is_true (Job.hasEquity f)) eqn:E; [| reflexivity].
      apply is_true_spec in E. contradiction. }
    unfold Job.findAll_query. rewrite !Job_wheres_parts. simpl. rewrite Hf.
    split; reflexivity.
Qed.

Lemma append_assoc (s1 s2 s3 : string) : (s1 +:+ s2) +:+ s3 = s1 +:+ s2 +:+ s3.
Proof.
  induction s1 as [|c s1 IH]; [reflexivity |].
  change (String c ((s1 +:+ s2) +:+ s3) = String c (s1 +:+ s2 +:+ s3)).
  f_equal. exact IH.
Qed.

Lemma Company_findAll_query_parts (f : Company.FilterOptions) :
  js_gt (Company.minEmployees f) (Company.maxEmployees f) = false ->
  Company.findAll_query f
  = inr (Company.select_sql
           +:+ match whereStatements (Company.wheres f) with
               | [] => ""
               | stmts => " WHERE " +:+ join " AND " stmts
               end
           +:+ "ORDER BY name",
         whereValues (Company.wheres f)).
Proof.
  intros Hgt. unfold Company.findAll_query. rewrite Hgt.
  destruct (whereStatements (Company.wheres f)) as [|stmt stmts]; simpl length; cbv iota beta zeta.
  - reflexivity.
  - change (0 <? S (length stmts))%nat with true. cbv iota.
    unfold Company.select_sql. rewrite !append_assoc. reflexivity.
Qed.

Lemma Job_findAll_query_parts (f : Job.FilterOptions) :
  Job.findAll_query f
  = (Job.select_sql
       +:+ match whereStatements (Job.wheres f) with
           | [] => ""
           | stmts => " WHERE " +:+ join " AND " stmts +:+ " "
           end
       +:+ "ORDER BY title",
     whereValues (Job.wheres f)).
Proof.
  unfold Job.findAll_query.
  destruct (whereStatements (Job.wheres f)) as [|stmt stmts]; simpl length; cbv iota beta zeta.
  - reflexivity.
  - change (0 <? S (length stmts))%nat with true. cbv iota.
    unfold Job.select_sql. rewrite !append_assoc. reflexivity.
Qed.

(** C5: the statement each [findAll] builds.  For companies the fragments
    are those of [minEmployees], [maxEmployees] and [name], in that order,
    for jobs those of [minSalary], [hasEquity] and [title], in that order;
    an absent ([undefined]) criterion contributes no fragment and no value;
    each placeholder is the 1-based position of the criterion's value among
    the bind values; the fragments present are joined by AND after WHERE,
    each two neighbours separated by the word AND between two spaces, as
    the statements of the two filters with all three criteria show in full;
    and with no criterion the statement is the plain selection followed by
    its ORDER BY, in which the word WHERE does not occur. *)
Theorem C5_filter_fragments_in_fixed_order :
  (forall f : Company.FilterOptions,
      js_gt (Company.minEmployees f) (Company.maxEmployees f) = false ->
      exists (smin smax sname : list string) (vmin vmax vname : list JsVal),
        match Company.minEmployees f with
        | None => smin = [] /\ vmin = []
        | Some n => smin = ["num_employees >= $1"] /\ vmin = [JNum n]
        end
        /\ match Company.maxEmployees f with
           | None => smax = [] /\ vmax = []
           | Some n =>
               smax = ["num_employees <= $" +:+ pretty (length vmin + 1)]
               /\ vmax = [JNum n]
           end
        /\ match Company.name f with
           | JUndefined => sname = [] /\ vname = []
           | v =>
               if truthy v then
                 sname = ["name ILIKE $" +:+ pretty (length vmin + length vmax + 1)]
                 /\ vname = [JStr ("%" +:+ to_string v +:+ "%")]
               else sname = [] /\ vname = []
           end
        /\ Company.findAll_query f
           = inr (Company.select_sql
                    +:+ match (smin ++ smax ++ sname)%list with
                        | [] => ""
                        | stmts => " WHERE " +:+ join " AND " stmts
                        end
                    +:+ "ORDER BY name",
                  vmin ++ vmax ++ vname))
  /\ (forall f : Job.FilterOptions,
        exists (ssal seq stitle : list string) (vsal vtitle : list JsVal),
          match Job.minSalary f with
          | JUndefined => ssal = [] /\ vsal = []
          | v => ssal = ["salary >= $1"] /\ vsal = [v]
          end
          /\ match Job.hasEquity f with
             | JBool true => seq = ["equity > 0"]
             | _ => seq = []
             end
          /\ match Job.title f with
             | JUndefined => stitle = [] /\ vtitle = []
             | v =>
                 stitle = ["title ILIKE $" +:+ pretty (length vsal + 1)]
                 /\ vtitle = [JStr ("%" +:+ to_string v +:+ "%")]
             end
          /\ Job.findAll_query f
             = (Job.select_sql
                  +:+ match (ssal ++ seq ++ stitle)%list with
                      | [] => ""
                      | stmts => " WHERE " +:+ join " AND " stmts +:+ " "
                      end
                  +:+ "ORDER BY title",
                vsal ++ vtitle))
  /\ Company.findAll_query Company.no_filter
     = inr (Company.select_sql +:+ "ORDER BY name", [])
  /\ includes "WHERE" (Company.select_sql +:+ "ORDER BY name") = false
  /\ Job.findAll_query Job.no_filter = (Job.select_sql +:+ "ORDER BY title", [])
  /\ includes "WHERE" (Job.select_sql +:+ "ORDER BY title") = false
  /\ (forall a : string, join " AND " [a] = a)
  /\ (forall (a b : string) (rest : list string),
        join " AND " (a :: b :: rest) = a +:+ " AND " +:+ join " AND " (b :: rest))
  /\ Company.findAll_query
       {| Company.minEmployees := Some 1%Z; Company.maxEmployees := Some 3%Z;
          Company.name := JStr "net" |}
     = inr (Company.select_sql
              +:+ " WHERE num_employees >= $1 AND num_employees <= $2 AND name ILIKE $3"
              +:+ "ORDER BY name",
            [JNum 1; JNum 3; JStr "%net%"])
  /\ Job.findAll_query
       {| Job.title := JStr "test2"; Job.minSalary := JNum 200;
          Job.hasEquity := JBool true |}
     = (Job.select_sql
          +:+ " WHERE salary >= $1 AND equity > 0 AND title ILIKE $2 "
          +:+ "ORDER BY title",
        [JNum 200; JStr "%test2%"]).
Proof.
  split; [| split; [| repeat split; intros; vm_compute; reflexivity]].
  - intros f Hgt. rewrite (Company_findAll_query_parts f Hgt).
    rewrite Company_wheres_parts. cbv zeta. simpl whereStatements. simpl whereValues.
    set (vmin := match Company.minEmployees f with
                 | Some n => [JNum n] | None => [] end).
    set (vmax := match Company.maxEmployees f with
                 | Some n => [JNum n] | None => [] end).
    exists (match Company.minEmployees f with
            | Some _ => ["num_employees >= $1"] | None => [] end),
      (match Company.maxEmployees f with
       | Some _ => ["num_employees <= $" +:+ pretty (length vmin + 1)]
       | None => [] end),
      (if truthy (Company.name f)
       then ["name ILIKE $" +:+ pretty (length vmin + length vmax + 1)] else []),
      vmin, vmax,
      (if truthy (Company.name f)
       then [JStr ("%" +:+ to_string (Company.name f) +:+ "%")] else []).
    subst vmin vmax.
    split; [destruct (Company.minEmployees f); split; reflexivity |].
    split; [destruct (Company.maxEmployees f); split; reflexivity |].
    split; [| reflexivity].
    destruct (Company.name f) as [| | [|] | z | s | l | o | fn]; simpl;
      try destruct (z =? 0)%Z; try destruct (String.eqb s ""); simpl;
      split; reflexivity.
  - intros f. rewrite Job_findAll_query_parts.
    rewrite Job_wheres_parts. cbv zeta. simpl whereStatements. simpl whereValues.
    set (vsal := if is_defined (Job.minSalary f) then [Job.minSalary f] else []).
    exists (if is_defined (Job.minSalary f) then ["salary >= $1"] else []),
      (if is_true (Job.hasEquity f) then ["equity > 0"] else []),
      (if is_defined (Job.title f)
       then ["title ILIKE $" +:+ pretty (length vsal + 1)] else []),
      vsal,
      (if is_defined (Job.title f)
       then [JStr ("%" +:+ to_string (Job.title f) +:+ "%")] else []).
    subst vsal.
    split; [destruct (Job.minSalary f); split; reflexivity |].
    split; [destruct (Job.hasEquity f) as [| | [|] | | | | |]; reflexivity |].
    split; [destruct (Job.title f); split; reflexivity |].
    reflexivity.
Qed.

(** ** The model operations *)

(** What an update sends: on a non-empty partial-data object the only
    statement sent is the UPDATE whose SET clause is the builder's, whose
    identifier placeholder is the number of values plus one, and whose bind
    values are the builder's followed by the identifier. *)
Lemma Company_update_sent (db : Db) (handle : JsVal) (data : JsObject) (w : World db) :
  data ≠ [] ->
  sent (Company.update handle data w).2
  = sent w
    ++ [(Company.update_sql
           (join ", " (imap (assignment Company.jsToSql) (Object_keys data)))
           ("$" +:+ pretty (length (Object_values data) + 1)),
         Object_values data ++ [handle])].
Proof.
  intros Hne. unfold Company.update.
  rewrite (sqlForPartialUpdate_nonempty data Company.jsToSql Hne).
  rewrite bind_lift_inr. cbv zeta. rewrite bind_db_query. simpl setCols. simpl values.
  destruct (run_query db _ _ (store w)) as [[e | [| row rows]] s]; reflexivity.
Qed.

Lemma Job_update_sent (db : Db) (id : JsVal) (data : JsObject) (w : World db) :
  data ≠ [] ->
  sent (Job.update id data w).2
  = sent w
    ++ [(Job.update_sql
           (join ", " (imap (assignment ∅) (Object_keys data)))
           ("$" +:+ pretty (length (Object_values data) + 1)),
         Object_values data ++ [id])].
Proof.
  intros Hne. unfold Job.update.
  rewrite (sqlForPartialUpdate_nonempty data ∅ Hne).
  rewrite bind_lift_inr. cbv zeta. rewrite bind_db_query. simpl setCols. simpl values.
  destruct (run_query db _ _ (store w)) as [[e | [| row rows]] s]; reflexivity.
Qed.

(** C6: on a non-empty partial-data object [Company.update] and
    [Job.update] send one statement.  Its text is the UPDATE of the model,
    written out below: the builder's SET clause after SET, and after
    [WHERE handle =] (for jobs [WHERE id =]) the placeholder whose index is
    the number of assignment fragments plus one.  Its bind values are the
    builder's values followed by the identifier, so that the identifier is
    the last bind value and stands at that index. *)
Theorem C6_update_appends_identifier
    (db : Db) (ident : JsVal) (data : JsObject) (w : World db) :
  data ≠ [] ->
  (exists (r : PartialUpdate) (cols : list string),
      sqlForPartialUpdate data Company.jsToSql = inr r
      /\ setCols r = join ", " cols
      /\ length cols = length data
      /\ sent (Company.update ident data w).2
         = sent w ++ [("UPDATE companies 
                      SET " +:+ setCols r +:+ " 
                      WHERE handle = " +:+ "$" +:+ pretty (length cols + 1) +:+ " 
                      RETURNING handle, 
                                name, 
                                description, 
                                num_employees AS " +:+ dq +:+ "numEmployees" +:+ dq +:+ ", 
                                logo_url AS " +:+ dq +:+ "logoUrl" +:+ dq,
                       values r ++ [ident])]
      /\ length (values r ++ [ident]) = length cols + 1
      /\ (values r ++ [ident]) !! length cols = Some ident)
  /\ (exists (r : PartialUpdate) (cols : list string),
        sqlForPartialUpdate data ∅ = inr r
        /\ setCols r = join ", " cols
        /\ length cols = length data
        /\ sent (Job.update ident data w).2
           = sent w ++ [("UPDATE jobs
                      SET " +:+ setCols r +:+ " 
                      WHERE id = " +:+ "$" +:+ pretty (length cols + 1) +:+ " 
                      RETURNING id, 
                                title, 
                                salary, 
                                equity, 
                                company_handle AS " +:+ dq +:+ "companyHandle" +:+ dq,
                         values r ++ [ident])]
        /\ length (values r ++ [ident]) = length cols + 1
        /\ (values r ++ [ident]) !! length cols = Some ident).
Proof.
  intros Hne.
  assert (Hlen : forall t : gmap string JsVal,
             length (imap (assignment t) (Object_keys data)) = length data).
  { intros t. rewrite length_imap. apply length_Object_keys. }
  split.
  - exists {| setCols := join ", " (imap (assignment Company.jsToSql) (Object_keys data));
              values := Object_values data |},
      (imap (assignment Company.jsToSql) (Object_keys data)).
    rewrite Hlen. simpl setCols. simpl values.
    split; [apply sqlForPartialUpdate_nonempty; assumption |].
    split; [reflexivity |]. split; [reflexivity |].
    split; [rewrite Company_update_sent by assumption;
            rewrite length_Object_values; reflexivity |].
    split; [rewrite length_app, length_Object_values; reflexivity |].
    rewrite lookup_app_r by (rewrite length_Object_values; lia).
    rewrite length_Object_values, Nat.sub_diag. reflexivity.
  - exists {| setCols := join ", " (imap (assignment ∅) (Object_keys data));
              values := Object_values data |},
      (imap (assignment ∅) (Object_keys data)).
    rewrite Hlen. simpl setCols. simpl values.
    split; [apply sqlForPartialUpdate_nonempty; assumption |].
    split; [reflexivity |]. split; [reflexivity |].
    split; [rewrite Job_update_sent by assumption;
            rewrite length_Object_values; reflexivity |].
    split; [rewrite length_app, length_Object_values; reflexivity |].
    rewrite lookup_app_r by (rewrite length_Object_values; lia).
    rewrite length_Object_values, Nat.sub_diag. reflexivity.
Qed.

Lemma C6_update_appends_identifier_witness :
  let db := fixed_db [] in
  let w := initial db tt in
  let ident := JNum 7 in
  let data := [("title", JStr "Updated"); ("salary", JNum 550)] in
  data ≠ []
  /\ (exists (r : PartialUpdate) (cols : list string),
         sqlForPartialUpdate data ∅ = inr r
         /\ setCols r = join ", " cols
         /\ length cols = length data
         /\ sent (Job.update ident data w).2
            = sent w ++ [("UPDATE jobs
                      SET " +:+ setCols r +:+ " 
                      WHERE id = " +:+ "$" +:+ pretty (length cols + 1) +:+ " 
                      RETURNING id, 
                                title, 
                                salary, 
                                equity, 
                                company_handle AS " +:+ dq +:+ "companyHandle" +:+ dq,
                          values r ++ [ident])]
         /\ length (values r ++ [ident]) = length cols + 1
         /\ (values r ++ [ident]) !! length cols = Some ident).
Proof.
  split; [discriminate |].
  apply (C6_update_appends_identifier (fixed_db []) (JNum 7)
           [("title", JStr "Updated"); ("salary", JNum 550)]
           (initial (fixed_db []) tt)).
  discriminate.
Defined.

(** C8: [Company.create] asks storage for the handle first.  When that
    lookup answers with a row the creation fails with the bad-request error
    that names the duplicate, and the lookup is the only statement sent: no
    INSERT reaches storage.  When it answers with no row, the INSERT is sent
    after the lookup. *)
Theorem C8_create_duplicate_found_by_lookup
    (db : Db) (handle name description numEmployees logoUrl : JsVal) (w : World db) :
  match run_query db Company.duplicate_check_sql [handle] (store w) with
  | (inr (_ :: _), s) =>
      Company.create handle name description numEmployees logoUrl w
      = (inl (BadRequestError (JStr ("Duplicate company: " +:+ to_string handle))),
         {| store := s;
            sent := sent w ++ [(Company.duplicate_check_sql, [handle])] |})
  | (inr [], s) =>
      sent (Company.create handle name description numEmployees logoUrl w).2
      = sent w ++ [(Company.duplicate_check_sql, [handle])]
               ++ [(Company.insert_sql,
                    [handle; name; description; numEmployees; logoUrl])]
  | (inl e, s) =>
      Company.create handle name description numEmployees logoUrl w
      = (inl e,
         {| store := s;
            sent := sent w ++ [(Company.duplicate_check_sql, [handle])] |})
  end.
Proof.
  unfold Company.create. rewrite bind_db_query.
  destruct (run_query db Company.duplicate_check_sql [handle] (store w))
    as [[e | [| row rows]] s]; try reflexivity.
  rewrite lookup_nil. rewrite bind_db_query. simpl store. simpl sent.
  destruct (run_query db Company.insert_sql _ s) as [[e | rows] s'];
    simpl; rewrite <- app_assoc; reflexivity.
Qed.

(** C9 fails for an update with an empty partial-data object: the storage
    below holds no row at all, and both updates fail with the bad-request
    error of the builder, not with not-found. *)
Lemma C9_empty_update_is_not_not_found :
  (Company.update (JStr "nope") [] (initial (fixed_db []) tt)).1
  = inl (BadRequestError (JStr "No data"))
  /\ is_not_found (Company.update (JStr "nope") [] (initial (fixed_db []) tt)).1 = false
  /\ (Job.update (JNum 0) [] (initial (fixed_db []) tt)).1
     = inl (BadRequestError (JStr "No data"))
  /\ is_not_found (Job.update (JNum 0) [] (initial (fixed_db []) tt)).1 = false.
Proof. repeat split. Qed.

(** C9, amended: when storage answers the statement of the operation with
    no row, [get] and [remove] fail with the not-found error, and so does
    [update] when its partial-data object is not empty, on companies and on
    jobs alike. *)
Theorem C9_no_row_is_not_found (db : Db) (ident : JsVal) (w : World db) :
  (forall s : storage db,
      run_query db Company.get_sql [ident] (store w) = (inr [], s) ->
      (Company.get ident w).1
      = inl (NotFoundError (JStr ("No company: " +:+ to_string ident))))
  /\ (forall s : storage db,
        run_query db Company.remove_sql [ident] (store w) = (inr [], s) ->
        (Company.remove ident w).1
        = inl (NotFoundError (JStr ("No company: " +:+ to_string ident))))
  /\ (forall (data : JsObject) (r : PartialUpdate) (s : storage db),
        sqlForPartialUpdate data Company.jsToSql = inr r ->
        run_query db
          (Company.update_sql (setCols r) ("$" +:+ pretty (length (values r) + 1)))
          (values r ++ [ident]) (store w) = (inr [], s) ->
        (Company.update ident data w).1
        = inl (NotFoundError (JStr ("No company: " +:+ to_string ident))))
  /\ (forall s : storage db,
        run_query db Job.get_sql [ident] (store w) = (inr [], s) ->
        (Job.get ident w).1
        = inl (NotFoundError (JStr ("No job: " +:+ to_string ident))))
  /\ (forall s : storage db,
        run_query db Job.remove_sql [ident] (store w) = (inr [], s) ->
        (Job.remove ident w).1
        = inl (NotFoundError (JStr ("No job: " +:+ to_string ident))))
  /\ (forall (data : JsObject) (r : PartialUpdate) (s : storage db),
        sqlForPartialUpdate data ∅ = inr r ->
        run_query db
          (Job.update_sql (setCols r) ("$" +:+ pretty (length (values r) + 1)))
          (values r ++ [ident]) (store w) = (inr [], s) ->
        (Job.update ident data w).1
        = inl (NotFoundError (JStr ("Job not found: " +:+ to_string ident))))
  /\ (forall data : JsObject,
        data ≠ [] ->
        (exists r, sqlForPartialUpdate data Company.jsToSql = inr r)
        /\ (exists r, sqlForPartialUpdate data ∅ = inr r)).
Proof.
  repeat split.
  - intros s H. unfold Company.get. rewrite bind_db_query, H. reflexivity.
  - intros s H. unfold Company.remove. rewrite bind_db_query, H. reflexivity.
  - intros data r s Hr H. unfold Company.update. rewrite Hr, bind_lift_inr.
    cbv zeta. rewrite bind_db_query, H. reflexivity.
  - intros s H. unfold Job.get. rewrite bind_db_query, H. reflexivity.
  - intros s H. unfold Job.remove. rewrite bind_db_query, H. reflexivity.
  - intros data r s Hr H. unfold Job.update. rewrite Hr, bind_lift_inr.
    cbv zeta. rewrite bind_db_query, H. reflexivity.
  - eexists. apply sqlForPartialUpdate_nonempty. assumption.
  - eexists. apply sqlForPartialUpdate_nonempty. assumption.
Qed.

Lemma C9_no_row_is_not_found_witness :
  let db := fixed_db [] in
  let w := initial db tt in
  (Company.get (JStr "nope") w).1 = inl (NotFoundError (JStr "No company: nope"))
  /\ (Company.remove (JStr "nope") w).1 = inl (NotFoundError (JStr "No company: nope"))
  /\ (Company.update (JStr "nope") [("name", JStr "New")] w).1
     = inl (NotFoundError (JStr "No company: nope"))
  /\ (Job.get (JNum 0) w).1 = inl (NotFoundError (JStr "No job: 0"))
  /\ (Job.remove (JNum 0) w).1 = inl (NotFoundError (JStr "No job: 0"))
  /\ (Job.update (JNum 0) [("title", JStr "Updated")] w).1
     = inl (NotFoundError (JStr "Job not found: 0")).
Proof.
  cbv zeta.
  pose proof (C9_no_row_is_not_found (fixed_db []) (JStr "nope")
                (initial (fixed_db []) tt)) as (Hget & Hrem & Hupd & _).
  pose proof (C9_no_row_is_not_found (fixed_db []) (JNum 0)
                (initial (fixed_db []) tt)) as (_ & _ & _ & Jget & Jrem & Jupd & _).
  split; [exact (Hget tt eq_refl) |].
  split; [exact (Hrem tt eq_refl) |].
  split; [exact (Hupd [("name", JStr "New")] _ tt eq_refl eq_refl) |].
  split; [exact (Jget tt eq_refl) |].
  split; [exact (Jrem tt eq_refl) |].
  exact (Jupd [("title", JStr "Updated")] _ tt eq_refl eq_refl).
Defined.

(** C10: in [Company.findAll] a falsy [name] (the empty string among
    them) builds the fragments, the values and the statement of the same
    filter without [name], and what [findAll] does is the same; in
    [Job.findAll] the empty title still adds the title fragment, bound to
    the pattern made of the two wildcard markers. *)
Theorem C10_empty_name_skipped_empty_title_kept :
  (forall f : Company.FilterOptions,
      truthy (Company.name f) = false ->
      let f0 := {| Company.minEmployees := Company.minEmployees f;
                   Company.maxEmployees := Company.maxEmployees f;
                   Company.name := JUndefined |} in
      Company.wheres f = Company.wheres f0
      /\ Company.findAll_query f = Company.findAll_query f0
      /\ forall (db : Db) (w : World db), Company.findAll f w = Company.findAll f0 w)
  /\ (forall f : Job.FilterOptions,
        Job.title f = JStr "" ->
        let f0 := {| Job.title := JUndefined; Job.minSalary := Job.minSalary f;
                     Job.hasEquity := Job.hasEquity f |} in
        whereStatements (Job.wheres f)
        = whereStatements (Job.wheres f0)
          ++ ["title ILIKE $" +:+ pretty (length (whereValues (Job.wheres f0)) + 1)]
        /\ whereValues (Job.wheres f) = whereValues (Job.wheres f0) ++ [JStr "%%"])
  /\ Company.findAll_query
       {| Company.minEmployees := None; Company.maxEmployees := None;
          Company.name := JStr "" |}
     = Company.findAll_query Company.no_filter
  /\ Job.findAll_query
       {| Job.title := JStr ""; Job.minSalary := JUndefined;
          Job.hasEquity := JUndefined |}
     = (Job.select_sql +:+ " WHERE title ILIKE $1 " +:+ "ORDER BY title", [JStr "%%"])
  /\ Job.findAll_query Job.no_filter = (Job.select_sql +:+ "ORDER BY title", []).
Proof.
  split; [| split; [| repeat split; vm_compute; reflexivity]].
  - intros f Hf f0.
    assert (Hw : Company.wheres f = Company.wheres f0).
    { rewrite !Company_wheres_parts. subst f0. simpl. rewrite Hf. reflexivity. }
    assert (Hq : Company.findAll_query f = Company.findAll_query f0).
    { unfold Company.findAll_query. rewrite Hw. reflexivity. }
    split; [exact Hw |]. split; [exact Hq |].
    intros db w. unfold Company.findAll. rewrite Hq. reflexivity.
  - intros f Hf f0. rewrite !Job_wheres_parts. subst f0. simpl. rewrite Hf. simpl.
    rewrite !app_nil_r.
    destruct (is_defined (Job.minSalary f)), (is_true (Job.hasEquity f));
      split; reflexivity.
Qed.

Lemma C10_empty_name_skipped_empty_title_kept_witness :
  Company.findAll
    {| Company.minEmployees := Some 2%Z; Company.maxEmployees := None;
       Company.name := JStr "" |} (initial (fixed_db []) tt)
  = Company.findAll
      {| Company.minEmployees := Some 2%Z; Company.maxEmployees := None;
         Company.name := JUndefined |} (initial (fixed_db []) tt)
  /\ whereValues (Job.wheres {| Job.title := JStr ""; Job.minSalary := JNum 100;
                                Job.hasEquity := JBool false |})
     = whereValues (Job.wheres {| Job.title := JUndefined; Job.minSalary := JNum 100;
                                  Job.hasEquity := JBool false |}) ++ [JStr "%%"].
Proof.
  pose proof C10_empty_name_skipped_empty_title_kept as (Hc & Hj & _).
  split.
  - exact (proj2 (proj2 (Hc {| Company.minEmployees := Some 2%Z;
                               Company.maxEmployees := None;
                               Company.name := JStr "" |} eq_refl))
             (fixed_db []) (initial (fixed_db []) tt)).
  - exact (proj2 (Hj {| Job.title := JStr ""; Job.minSalary := JNum 100;
                        Job.hasEquity := JBool false |} eq_refl)).
Defined.

(** ** The patch route *)

Lemma has_prop_elem (o : JsObject) (k : string) :
  has_prop o k = true -> k ∈ Object_keys o.
Proof.
  unfold has_prop. intros H. apply existsb_exists in H as (k' & Hin & Heq).
  apply String.eqb_eq in Heq. subst k'. apply list_elem_of_In. exact Hin.
Qed.

Lemma nonempty_errors (a b c : list string) :
  c ≠ [] -> (length (a ++ b ++ c) =? 0)%nat = false /\ a ++ b ++ c ≠ [].
Proof.
  intros Hc. destruct c as [| x c]; [contradiction |]. split.
  - rewrite !length_app. simpl.
    destruct (Nat.eqb_spec (length a + (length b + S (length c))) 0); [lia | reflexivity].
  - intros E. apply (f_equal length) in E. rewrite !length_app in E. simpl in E. lia.
Qed.

(** A schema that rejects unknown fields fails an instance that has a
    field that the schema does not know. *)
Lemma validate_unknown_field (o : JsObject) (schema : Schema) (field : string) :
  additionalProperties schema = false ->
  has_prop o field = true ->
  known_property schema field = false ->
  valid (validate o schema) = false /\ errors (validate o schema) ≠ [].
Proof.
  intros Hadd Hin Hun. unfold validate. rewrite Hadd. cbv zeta.
  simpl valid. simpl errors. apply nonempty_errors.
  intros E. apply fmap_nil_inv in E.
  assert (Hf : field ∈ filter (fun k => known_property schema k = false)
                 (Object_keys o)).
  { apply list_elem_of_filter. split; [exact Hun | apply has_prop_elem; exact Hin]. }
  rewrite E in Hf. apply elem_of_nil in Hf. exact Hf.
Qed.

(** A body that names the owning handle or the identifier does not pass
    the job-update schema. *)
Lemma jobUpdateSchema_rejects_handle_and_id (o : JsObject) (field : string) :
  has_prop o field = true ->
  field = "companyHandle" \/ field = "id" ->
  valid (validate o jobUpdateSchema) = false
  /\ errors (validate o jobUpdateSchema) ≠ [].
Proof.
  intros Hin Hfield. apply (validate_unknown_field o jobUpdateSchema field).
  - reflexivity.
  - exact Hin.
  - destruct Hfield as [-> | ->]; reflexivity.
Qed.

(** C7 fails for [Job.update]: it checks no field name.  Asked to change
    the identifier, or the owning handle under its column name, it sends the
    UPDATE that does so and returns the row that storage answers with. *)
Lemma C7_update_accepts_identifier_change :
  let row := [("id", JNum 999); ("title", JStr "test1"); ("salary", JNum 100);
              ("equity", JStr "0.1"); ("companyHandle", JStr "c2")] in
  let w := initial (fixed_db [row]) tt in
  (Job.update (JNum 1) [("id", JNum 999)] w).1 = inr row
  /\ sent (Job.update (JNum 1) [("id", JNum 999)] w).2
     = [(Job.update_sql (dq +:+ "id" +:+ dq +:+ "=$1") "$2", [JNum 999; JNum 1])]
  /\ (Job.update (JNum 1) [("company_handle", JStr "c2")] w).1 = inr row
  /\ sent (Job.update (JNum 1) [("company_handle", JStr "c2")] w).2
     = [(Job.update_sql (dq +:+ "company_handle" +:+ dq +:+ "=$1") "$2",
         [JStr "c2"; JNum 1])].
Proof. repeat split; vm_compute; reflexivity. Qed.

(** C7, amended: a PATCH /jobs/:id request whose body names the owning
    handle ([companyHandle]) or the identifier ([id]) is handed to the error
    handler and sends nothing to storage; when the admin check lets it
    through, the error is the bad-request error that carries the validation
    messages.  (These are the two requests for which the tests of the route
    expect status 400.) *)
Theorem C7_patch_rejects_handle_and_identifier
    (db : Db) (ensureIsAdmin : Request -> option error) (req : Request)
    (w : World db) (field : string) :
  has_prop (body req) field = true ->
  field = "companyHandle" \/ field = "id" ->
  exists e : error,
    JobsRoutes.patch ensureIsAdmin req w = (inl e, w)
    /\ (ensureIsAdmin req = None ->
        exists msgs : list JsVal, msgs ≠ [] /\ e = BadRequestError (JArr msgs)).
Proof.
  intros Hin Hfield.
  destruct (jobUpdateSchema_rejects_handle_and_id (body req) field Hin Hfield)
    as [Hv Herr].
  unfold JobsRoutes.patch. destruct (ensureIsAdmin req) as [err |].
  - exists err. split; [reflexivity | discriminate].
  - cbv zeta. rewrite Hv. simpl negb. cbv iota.
    eexists. split; [reflexivity |]. intros _.
    exists (JStr <$> errors (validate (body req) jobUpdateSchema)).
    split; [| reflexivity].
    intros E. apply fmap_nil_inv in E. contradiction.
Qed.

Lemma C7_patch_rejects_handle_and_identifier_witness :
  let req := {| headers := []; params_id := JStr "1";
                body := [("companyHandle", JStr "c2")] |} in
  let w := initial (fixed_db []) tt in
  has_prop (body req) "companyHandle" = true
  /\ exists e : error,
       JobsRoutes.patch (fun _ => None) req w = (inl e, w)
       /\ ((fun _ : Request => @None error) req = None ->
           exists msgs : list JsVal, msgs ≠ [] /\ e = BadRequestError (JArr msgs)).
Proof.
  split; [reflexivity |].
  apply (C7_patch_rejects_handle_and_identifier (fixed_db []) (fun _ => None)
           {| headers := []; params_id := JStr "1";
              body := [("companyHandle", JStr "c2")] |}
           (initial (fixed_db []) tt) "companyHandle");
    [reflexivity | left; reflexivity].
Defined.

(** * Further properties of the builder and of the list queries *)

(** X1: the text of the UPDATE that [Company.update] and [Job.update] send
    is fixed by the field names alone: two non-empty partial-data objects
    with the same keys give the same text, whatever their values, the
    identifiers and the worlds are; the values and the identifier travel as
    bind values only. *)
Theorem X1_update_text_depends_on_keys_only
    (db : Db) (id1 id2 : JsVal) (data1 data2 : JsObject) (w1 w2 : World db) :
  data1 ≠ [] ->
  Object_keys data1 = Object_keys data2 ->
  (exists text : string,
      sent (Company.update id1 data1 w1).2
      = sent w1 ++ [(text, Object_values data1 ++ [id1])]
      /\ sent (Company.update id2 data2 w2).2
         = sent w2 ++ [(text, Object_values data2 ++ [id2])])
  /\ (exists text : string,
        sent (Job.update id1 data1 w1).2
        = sent w1 ++ [(text, Object_values data1 ++ [id1])]
        /\ sent (Job.update id2 data2 w2).2
           = sent w2 ++ [(text, Object_values data2 ++ [id2])]).
Proof.
  intros Hne Hkeys.
  assert (Hne2 : data2 ≠ []).
  { intros ->. destruct data1; [congruence | discriminate]. }
  assert (Hlen : length (Object_values data2) = length (Object_values data1)).
  { rewrite !length_Object_values, <- !length_Object_keys, Hkeys. reflexivity. }
  split; eexists; (split; [| rewrite ?Company_update_sent, ?Job_update_sent by assumption;
                            rewrite <- Hkeys, Hlen; reflexivity]).
  - rewrite Company_update_sent by assumption. reflexivity.
  - rewrite Job_update_sent by assumption. reflexivity.
Qed.

Lemma X1_update_text_depends_on_keys_only_witness :
  let db := fixed_db [] in
  let w := initial db tt in
  let data1 := [("title", JStr "Updated"); ("salary", JNum 550)] in
  let data2 := [("title", JStr "Other"); ("salary", JNull)] in
  data1 ≠ []
  /\ exists text : string,
       sent (Job.update (JNum 1) data1 w).2
       = sent w ++ [(text, Object_values data1 ++ [JNum 1])]
       /\ sent (Job.update (JStr "2") data2 w).2
          = sent w ++ [(text, Object_values data2 ++ [JStr "2"])].
Proof.
  split; [discriminate |].
  apply (X1_update_text_depends_on_keys_only (fixed_db []) (JNum 1) (JStr "2")
           [("title", JStr "Updated"); ("salary", JNum 550)]
           [("title", JStr "Other"); ("salary", JNull)]
           (initial (fixed_db []) tt) (initial (fixed_db []) tt));
    [discriminate | reflexivity].
Defined.

(** X3: [Company.findAll] builds a statement unless both bounds are given
    and the lower one is greater than the upper one: a single bound, or
    equal bounds, never fail. *)
Theorem X3_company_bounds_error_exactly (f : Company.FilterOptions) :
  (exists e : error, Company.findAll_query f = inl e)
  <-> (exists lo hi : Z,
          Company.minEmployees f = Some lo
          /\ Company.maxEmployees f = Some hi /\ (hi < lo)%Z).
Proof.
  unfold Company.findAll_query, js_gt. split.
  - intros [e He].
    destruct (Company.minEmployees f) as [lo |], (Company.maxEmployees f) as [hi |];
      try discriminate.
    destruct (Z.ltb_spec hi lo); [| discriminate]. eauto.
  - intros (lo & hi & -> & -> & Hlt).
    destruct (Z.ltb_spec hi lo); [| lia]. eauto.
Qed.

(** X4: every fragment of [Company.findAll] has its own bind value, so
    fragments and values are as many; in [Job.findAll] the fragments are one
    more than the values exactly when [hasEquity] is the boolean [true]. *)
Theorem X4_fragments_and_values_counts :
  (forall f : Company.FilterOptions,
      length (whereStatements (Company.wheres f))
      = length (whereValues (Company.wheres f)))
  /\ (forall f : Job.FilterOptions,
        length (whereStatements (Job.wheres f))
        = (length (whereValues (Job.wheres f))
           + if is_true (Job.hasEquity f) then 1 else 0)%nat).
Proof.
  split; intros f.
  - rewrite Company_wheres_parts. cbv zeta. simpl whereStatements. simpl whereValues.
    rewrite !length_app.
    destruct (Company.minEmployees f), (Company.maxEmployees f),
      (truthy (Company.name f)); reflexivity.
  - rewrite Job_wheres_parts. cbv zeta. simpl whereStatements. simpl whereValues.
    rewrite !length_app.
    destruct (is_defined (Job.minSalary f)), (is_true (Job.hasEquity f)),
      (is_defined (Job.title f)); reflexivity.
Qed.

Lemma is_Some_iff_cases {A : Type} (x y : option A) :
  (is_Some x <-> is_Some y) ->
  (exists a b : A, x = Some a /\ y = Some b) \/ (x = None /\ y = None).
Proof.
  intros [H1 H2]. destruct x as [a |], y as [b |]; eauto.
  - destruct H1 as [b Hb]; [eauto | discriminate].
  - destruct H2 as [a Ha]; [eauto | discriminate].
Qed.

(** X5: the text of the statement a [findAll] sends is fixed by which
    criteria take part; the values of the criteria are bind values only.
    Two company filters that pass the bounds check and agree on which
    bounds are given and on whether the name is truthy give the same text;
    two job filters that agree on which of salary and title are defined and
    on whether [hasEquity] is [true] give the same text. *)
Theorem X5_findAll_text_depends_on_presence_only :
  (forall f g : Company.FilterOptions,
      js_gt (Company.minEmployees f) (Company.maxEmployees f) = false ->
      js_gt (Company.minEmployees g) (Company.maxEmployees g) = false ->
      is_Some (Company.minEmployees f) <-> is_Some (Company.minEmployees g) ->
      is_Some (Company.maxEmployees f) <-> is_Some (Company.maxEmployees g) ->
      truthy (Company.name f) = truthy (Company.name g) ->
      exists text : string,
        Company.findAll_query f = inr (text, whereValues (Company.wheres f))
        /\ Company.findAll_query g = inr (text, whereValues (Company.wheres g)))
  /\ (forall f g : Job.FilterOptions,
        is_defined (Job.minSalary f) = is_defined (Job.minSalary g) ->
        is_true (Job.hasEquity f) = is_true (Job.hasEquity g) ->
        is_defined (Job.title f) = is_defined (Job.title g) ->
        (Job.findAll_query f).1 = (Job.findAll_query g).1).
Proof.
  split.
  - intros f g Hf Hg Hmin Hmax Hname.
    rewrite (Company_findAll_query_parts f Hf), (Company_findAll_query_parts g Hg).
    eexists. split; [reflexivity |]. do 2 f_equal.
    rewrite !Company_wheres_parts. cbv zeta. simpl whereStatements. rewrite Hname.
    destruct (is_Some_iff_cases _ _ Hmin) as [(a & a' & -> & ->) | [-> ->]];
      destruct (is_Some_iff_cases _ _ Hmax) as [(b & b' & -> & ->) | [-> ->]];
      reflexivity.
  - intros f g Hs He Ht. rewrite !Job_findAll_query_parts. simpl fst.
    rewrite !Job_wheres_parts. cbv zeta. simpl whereStatements.
    rewrite Hs, He, Ht.
    destruct (is_defined (Job.minSalary g)); reflexivity.
Qed.

(** * Further properties of the model operations *)

(** ** Reading, writing and deleting a property *)

Lemma get_prop_set_prop_eq (k : string) (v : JsVal) (o : JsObject) :
  get_prop (set_prop k v o) k = v.
Proof.
  induction o as [| [k' v'] o IH]; simpl.
  - rewrite String.eqb_refl. reflexivity.
  - destruct (String.eqb_spec k' k) as [-> | Hne]; simpl.
    + rewrite String.eqb_refl. reflexivity.
    + destruct (String.eqb_spec k' k); [contradiction | exact IH].
Qed.

Lemma get_prop_set_prop_ne (k k' : string) (v : JsVal) (o : JsObject) :
  k ≠ k' -> get_prop (set_prop k v o) k' = get_prop o k'.
Proof.
  intros Hne. induction o as [| [k0 v0] o IH]; simpl.
  - destruct (String.eqb_spec k k'); [contradiction | reflexivity].
  - destruct (String.eqb_spec k0 k) as [-> | Hk]; simpl.
    + destruct (String.eqb_spec k k'); [contradiction | reflexivity].
    + destruct (String.eqb_spec k0 k'); [reflexivity | exact IH].
Qed.

Lemma get_prop_delete_prop_ne (k k' : string) (o : JsObject) :
  k ≠ k' -> get_prop (delete_prop k o) k' = get_prop o k'.
Proof.
  intros Hne. unfold delete_prop. induction o as [| [k0 v0] o IH]; [reflexivity |].
  rewrite filter_cons. simpl. destruct (decide (k0 ≠ k)) as [Hk | Hk]; simpl.
  - rewrite IH. reflexivity.
  - apply dec_stable in Hk. subst k0.
    destruct (String.eqb_spec k k'); [contradiction | exact IH].
Qed.

Lemma has_prop_delete_prop (k : string) (o : JsObject) :
  has_prop (delete_prop k o) k = false.
Proof.
  unfold has_prop, delete_prop, Object_keys.
  induction o as [| [k0 v0] o IH]; [reflexivity |].
  rewrite filter_cons. destruct (decide ((k0, v0).1 ≠ k)) as [Hk | Hk].
  - rewrite fmap_cons. cbn [existsb fst]. rewrite IH. simpl in Hk.
    destruct (String.eqb_spec k k0); [congruence | reflexivity].
  - exact IH.
Qed.

Lemma has_prop_set_prop_ne (k k' : string) (v : JsVal) (o : JsObject) :
  k ≠ k' -> has_prop (set_prop k v o) k' = has_prop o k'.
Proof.
  intros Hne. unfold has_prop, Object_keys.
  induction o as [| [k0 v0] o IH].
  - simpl. destruct (String.eqb_spec k' k); [congruence | reflexivity].
  - simpl set_prop. destruct (String.eqb_spec k0 k) as [-> | Hk].
    + rewrite !fmap_cons. cbn [existsb fst]. reflexivity.
    + rewrite !fmap_cons. cbn [existsb fst]. rewrite IH. reflexivity.
Qed.

(** ** What the operations answer *)

(** X6: a [findAll] adds nothing of its own to what storage answers: it
    sends the one statement it built and returns that answer, the empty list
    of rows and a failure of storage included. For companies this holds
    whenever the bounds check lets the statement be built. *)
Theorem X6_findAll_returns_the_answer_of_storage (db : Db) (w : World db) :
  (forall f : Job.FilterOptions,
      Job.findAll f w
      = let '(answer, s) :=
          run_query db (Job.findAll_query f).1 (Job.findAll_query f).2 (store w) in
        (answer, {| store := s; sent := sent w ++ [Job.findAll_query f] |}))
  /\ (forall (f : Company.FilterOptions) (text : string) (vals : list JsVal),
        Company.findAll_query f = inr (text, vals) ->
        Company.findAll f w
        = let '(answer, s) := run_query db text vals (store w) in
          (answer, {| store := s; sent := sent w ++ [(text, vals)] |})).
Proof.
  split.
  - intros f. unfold Job.findAll. destruct (Job.findAll_query f) as [text vals].
    rewrite bind_db_query. simpl fst. simpl snd.
    destruct (run_query db text vals (store w)) as [[e | rows] s]; reflexivity.
  - intros f text vals Hq. unfold Company.findAll. rewrite Hq, bind_lift_inr.
    rewrite bind_db_query.
    destruct (run_query db text vals (store w)) as [[e | rows] s]; reflexivity.
Qed.

(** X7: when storage fails every statement with an error, every model
    operation that gets as far as storage fails with that same error. *)
Theorem X7_storage_failure_propagates
    (db : Db) (w : World db) (e : error) (s : storage db) :
  (forall (text : string) (params : list JsVal),
      run_query db text params (store w) = (inl e, s)) ->
  (forall handle name description numEmployees logoUrl : JsVal,
      (Company.create handle name description numEmployees logoUrl w).1 = inl e)
  /\ (forall f : Company.FilterOptions,
        js_gt (Company.minEmployees f) (Company.maxEmployees f) = false ->
        (Company.findAll f w).1 = inl e)
  /\ (forall handle : JsVal, (Company.get handle w).1 = inl e)
  /\ (forall (handle : JsVal) (data : JsObject),
        data ≠ [] -> (Company.update handle data w).1 = inl e)
  /\ (forall handle : JsVal, (Company.remove handle w).1 = inl e)
  /\ (forall title salary equity companyHandle : JsVal,
        (Job.create title salary equity companyHandle w).1 = inl e)
  /\ (forall f : Job.FilterOptions, (Job.findAll f w).1 = inl e)
  /\ (forall id : JsVal, (Job.get id w).1 = inl e)
  /\ (forall (id : JsVal) (data : JsObject),
        data ≠ [] -> (Job.update id data w).1 = inl e)
  /\ (forall id : JsVal, (Job.remove id w).1 = inl e).
Proof.
  intros Hfail. repeat split.
  - intros. unfold Company.create. rewrite bind_db_query, Hfail. reflexivity.
  - intros f Hgt. unfold Company.findAll.
    rewrite (Company_findAll_query_parts f Hgt), bind_lift_inr.
    rewrite bind_db_query, Hfail. reflexivity.
  - intros. unfold Company.get. rewrite bind_db_query, Hfail. reflexivity.
  - intros handle data Hne. unfold Company.update.
    rewrite (sqlForPartialUpdate_nonempty data _ Hne), bind_lift_inr.
    cbv zeta. rewrite bind_db_query, Hfail. reflexivity.
  - intros. unfold Company.remove. rewrite bind_db_query, Hfail. reflexivity.
  - intros. unfold Job.create. rewrite bind_db_query, Hfail. reflexivity.
  - intros f. unfold Job.findAll. destruct (Job.findAll_query f) as [text vals].
    rewrite bind_db_query, Hfail. reflexivity.
  - intros. unfold Job.get. rewrite bind_db_query, Hfail. reflexivity.
  - intros id data Hne. unfold Job.update.
    rewrite (sqlForPartialUpdate_nonempty data _ Hne), bind_lift_inr.
    cbv zeta. rewrite bind_db_query, Hfail. reflexivity.
  - intros. unfold Job.remove. rewrite bind_db_query, Hfail. reflexivity.
Qed.

Lemma X7_storage_failure_propagates_witness :
  let e := OtherError (JStr "connection refused") in
  let w := initial (failing_db e) tt in
  (Company.get (JStr "c1") w).1 = inl e
  /\ (Job.update (JNum 1) [("title", JStr "Updated")] w).1 = inl e
  /\ (Job.findAll Job.no_filter w).1 = inl e.
Proof.
  cbv zeta.
  pose proof (X7_storage_failure_propagates
                (failing_db (OtherError (JStr "connection refused")))
                (initial (failing_db (OtherError (JStr "connection refused"))) tt)
                (OtherError (JStr "connection refused")) tt
                (fun _ _ => eq_refl))
    as (_ & _ & Hget & _ & _ & _ & Hall & _ & Hupd & _).
  split; [apply Hget |]. split; [apply Hupd; discriminate | apply Hall].
Defined.

(** ** How many statements an operation sends *)

Lemma sends_ret {db : Db} {A : Type} (a : A) : sends_at_most (db := db) 0 (mret a).
Proof. intros w. exists []. split; [symmetry; apply app_nil_r | reflexivity]. Qed.

Lemma sends_throw {db : Db} {A : Type} (e : error) :
  sends_at_most (db := db) (A := A) 0 (throw e).
Proof. intros w. exists []. split; [symmetry; apply app_nil_r | reflexivity]. Qed.

Lemma sends_lift {db : Db} {A : Type} (r : error + A) :
  sends_at_most (db := db) 0 (lift r).
Proof. destruct r; [apply sends_throw | apply sends_ret]. Qed.

Lemma sends_db_query {db : Db} (text : string) (params : list JsVal) :
  sends_at_most (db := db) 1 (db_query text params).
Proof.
  intros w. exists [(text, params)]. unfold db_query.
  destruct (run_query db text params (store w)) as [r s]. split; reflexivity.
Qed.

Lemma sends_bind {db : Db} {A B : Type} (n k : nat) (m : M db A) (f : A -> M db B) :
  sends_at_most n m -> (forall a : A, sends_at_most k (f a)) ->
  sends_at_most (n + k) (m ≫= f).
Proof.
  intros Hm Hf w. destruct (Hm w) as (l & Hl & Hn).
  unfold mbind, M_bind. destruct (m w) as [[e | a] w'] eqn:E; simpl in Hl.
  - exists l. split; [exact Hl | lia].
  - destruct (Hf a w') as (l' & Hl' & Hk). exists (l ++ l').
    split; [rewrite Hl', Hl, app_assoc; reflexivity | rewrite length_app; lia].
Qed.

Lemma sends_mono {db : Db} {A : Type} (n k : nat) (m : M db A) :
  (n <= k)%nat -> sends_at_most n m -> sends_at_most k m.
Proof.
  intros Hnk Hm w. destruct (Hm w) as (l & Hl & Hn). exists l. split; [exact Hl | lia].
Qed.

Ltac sends_step :=
  first
    [ apply sends_ret
    | apply sends_throw
    | apply sends_lift
    | apply sends_db_query
    | apply (sends_bind 0 1)
    | apply (sends_bind 1 0)
    | apply (sends_bind 1 1)
    | apply (sends_bind 0 0) ].

(** X8: every operation only appends to the statements already sent, and
    sends at most two of them: [get] on either model and [Company.create]
    at most two, every other model operation at most one; the handlers of
    the jobs routes send what their model operation sends. *)
Theorem X8_statements_sent_are_bounded (db : Db) :
  (forall handle name description numEmployees logoUrl : JsVal,
      sends_at_most (db := db) 2
        (Company.create handle name description numEmployees logoUrl))
  /\ (forall f, sends_at_most (db := db) 1 (Company.findAll f))
  /\ (forall handle, sends_at_most (db := db) 2 (Company.get handle))
  /\ (forall handle data, sends_at_most (db := db) 1 (Company.update handle data))
  /\ (forall handle, sends_at_most (db := db) 1 (Company.remove handle))
  /\ (forall title salary equity companyHandle : JsVal,
        sends_at_most (db := db) 1 (Job.create title salary equity companyHandle))
  /\ (forall f, sends_at_most (db := db) 1 (Job.findAll f))
  /\ (forall id, sends_at_most (db := db) 2 (Job.get id))
  /\ (forall id data, sends_at_most (db := db) 1 (Job.update id data))
  /\ (forall id, sends_at_most (db := db) 1 (Job.remove id))
  /\ (forall ensureIsAdmin req,
        sends_at_most (db := db) 1 (JobsRoutes.post ensureIsAdmin req)
        /\ sends_at_most (db := db) 2 (JobsRoutes.get req)
        /\ sends_at_most (db := db) 1 (JobsRoutes.patch ensureIsAdmin req)
        /\ sends_at_most (db := db) 1 (JobsRoutes.delete ensureIsAdmin req)).
Proof.
  assert (Hcreate : forall a b c d : JsVal,
             sends_at_most (db := db) 1 (Job.create a b c d)).
  { intros. unfold Job.create. apply (sends_bind 1 0); [sends_step |].
    intros rows. sends_step. }
  assert (Hget : forall id, sends_at_most (db := db) 2 (Job.get id)).
  { intros id. unfold Job.get. apply (sends_bind 1 1); [sends_step |].
    intros [| job rows]; simpl lookup; cbv iota;
      [apply (sends_mono 0 1); [lia | sends_step] |].
    apply (sends_bind 1 0); [sends_step |]. intros rows'. sends_step. }
  assert (Hupdate : forall id data, sends_at_most (db := db) 1 (Job.update id data)).
  { intros id data. unfold Job.update. apply (sends_bind 0 1); [sends_step |].
    intros r. cbv zeta. apply (sends_bind 1 0); [sends_step |].
    intros [| row rows]; simpl lookup; sends_step. }
  assert (Hremove : forall id, sends_at_most (db := db) 1 (Job.remove id)).
  { intros id. unfold Job.remove. apply (sends_bind 1 0); [sends_step |].
    intros [| row rows]; simpl lookup; sends_step. }
  repeat split.
  - intros. unfold Company.create. apply (sends_bind 1 1); [sends_step |].
    intros [| row rows]; simpl lookup; cbv iota.
    + apply (sends_bind 1 0); [sends_step |]. intros rows'. sends_step.
    + apply (sends_mono 0 1); [lia | sends_step].
  - intros f. unfold Company.findAll. apply (sends_bind 0 1); [sends_step |].
    intros [text vals]. apply (sends_bind 1 0); [sends_step |]. intros rows. sends_step.
  - intros handle. unfold Company.get. apply (sends_bind 1 1); [sends_step |].
    intros [| company rows]; simpl lookup; cbv iota;
      [apply (sends_mono 0 1); [lia | sends_step] |].
    apply (sends_bind 1 0); [sends_step |]. intros rows'. sends_step.
  - intros handle data. unfold Company.update. apply (sends_bind 0 1); [sends_step |].
    intros r. cbv zeta. apply (sends_bind 1 0); [sends_step |].
    intros [| row rows]; simpl lookup; sends_step.
  - intros handle. unfold Company.remove. apply (sends_bind 1 0); [sends_step |].
    intros [| row rows]; simpl lookup; sends_step.
  - exact Hcreate.
  - intros f. unfold Job.findAll. destruct (Job.findAll_query f) as [text vals].
    apply (sends_bind 1 0); [sends_step |]. intros rows. sends_step.
  - exact Hget.
  - exact Hupdate.
  - exact Hremove.
  - unfold JobsRoutes.post. destruct (ensureIsAdmin req);
      [apply (sends_mono 0 1); [lia | sends_step] |].
    cbv zeta. destruct (negb _); [apply (sends_mono 0 1); [lia | sends_step] |].
    apply (sends_bind 1 0); [apply Hcreate |]. intros job. sends_step.
  - unfold JobsRoutes.get. apply (sends_bind 2 0); [apply Hget |].
    intros job. sends_step.
  - unfold JobsRoutes.patch. destruct (ensureIsAdmin req);
      [apply (sends_mono 0 1); [lia | sends_step] |].
    cbv zeta. destruct (negb _); [apply (sends_mono 0 1); [lia | sends_step] |].
    apply (sends_bind 1 0); [apply Hupdate |]. intros job. sends_step.
  - unfold JobsRoutes.delete. destruct (ensureIsAdmin req);
      [apply (sends_mono 0 1); [lia | sends_step] |].
    apply (sends_bind 1 0); [apply Hremove |]. intros u. sends_step.
Qed.

(** ** What the operations return when the row exists *)

(** X9: [Company.get] on a handle that storage knows asks for the
    company and then for its jobs, both by the handle, and returns the
    company row with the property [jobs] set to the array of the job rows;
    every other property is the company row's. *)
Theorem X9_company_get_attaches_jobs
    (db : Db) (handle : JsVal) (w : World db)
    (company : JsObject) (others jobs : list JsObject) (s1 s2 : storage db) :
  run_query db Company.get_sql [handle] (store w) = (inr (company :: others), s1) ->
  run_query db Company.get_jobs_sql [handle] s1 = (inr jobs, s2) ->
  exists result : JsObject,
    Company.get handle w
    = (inr result,
       {| store := s2;
          sent := sent w ++ [(Company.get_sql, [handle]);
                             (Company.get_jobs_sql, [handle])] |})
    /\ get_prop result "jobs" = JArr (JObj <$> jobs)
    /\ forall k : string, k ≠ "jobs" -> get_prop result k = get_prop company k.
Proof.
  intros H1 H2. exists (set_prop "jobs" (JArr (JObj <$> jobs)) company).
  split; [| split].
  - unfold Company.get. rewrite bind_db_query, H1.
    change ((company :: others) !! 0%nat) with (Some company). cbv iota.
    rewrite bind_db_query. simpl store. rewrite H2. simpl sent.
    rewrite <- app_assoc. reflexivity.
  - apply get_prop_set_prop_eq.
  - intros k Hk. apply get_prop_set_prop_ne. congruence.
Qed.

Lemma X9_company_get_attaches_jobs_witness :
  let row := [("handle", JStr "c1"); ("name", JStr "C1")] in
  let w := initial (fixed_db [row]) tt in
  exists result : JsObject,
    Company.get (JStr "c1") w
    = (inr result,
       Build_World (fixed_db [row]) tt
         (sent w ++ [(Company.get_sql, [JStr "c1"]);
                     (Company.get_jobs_sql, [JStr "c1"])]))
    /\ get_prop result "jobs" = JArr (JObj <$> [row])
    /\ forall k : string, k ≠ "jobs" -> get_prop result k = get_prop row k.
Proof.
  exact (X9_company_get_attaches_jobs
           (fixed_db [[("handle", JStr "c1"); ("name", JStr "C1")]]) (JStr "c1")
           (initial (fixed_db [[("handle", JStr "c1"); ("name", JStr "C1")]]) tt)
           [("handle", JStr "c1"); ("name", JStr "C1")] []
           [[("handle", JStr "c1"); ("name", JStr "C1")]] tt tt eq_refl eq_refl).
Defined.

(** X10: [Job.get] on an identifier that storage knows asks for the job
    and then for the company whose handle is the job row's [companyHandle];
    the job it returns has no [companyHandle] any more, has the property
    [company] set to the first company row ([undefined] when there is none),
    and has every other property of the job row. *)
Theorem X10_job_get_nests_the_company
    (db : Db) (id : JsVal) (w : World db)
    (job : JsObject) (others companies : list JsObject) (s1 s2 : storage db) :
  run_query db Job.get_sql [id] (store w) = (inr (job :: others), s1) ->
  run_query db Job.get_company_sql [get_prop job "companyHandle"] s1
  = (inr companies, s2) ->
  exists result : JsObject,
    Job.get id w
    = (inr result,
       {| store := s2;
          sent := sent w ++ [(Job.get_sql, [id]);
                             (Job.get_company_sql, [get_prop job "companyHandle"])] |})
    /\ has_prop result "companyHandle" = false
    /\ get_prop result "company"
       = match companies with c :: _ => JObj c | [] => JUndefined end
    /\ forall k : string,
         k ≠ "companyHandle" -> k ≠ "company" -> get_prop result k = get_prop job k.
Proof.
  intros H1 H2.
  exists (set_prop "company"
            (match companies !! 0%nat with Some row => JObj row | None => JUndefined end)
            (delete_prop "companyHandle" job)).
  split; [| split; [| split]].
  - unfold Job.get. rewrite bind_db_query, H1.
    change ((job :: others) !! 0%nat) with (Some job). cbv iota.
    rewrite bind_db_query. simpl store. rewrite H2. simpl sent.
    rewrite <- app_assoc. reflexivity.
  - rewrite has_prop_set_prop_ne by discriminate. apply has_prop_delete_prop.
  - rewrite get_prop_set_prop_eq. destruct companies; reflexivity.
  - intros k Hk1 Hk2. rewrite get_prop_set_prop_ne by congruence.
    apply get_prop_delete_prop_ne. congruence.
Qed.

Lemma X10_job_get_nests_the_company_witness :
  let row := [("id", JNum 1); ("title", JStr "test1"); ("companyHandle", JStr "c1")] in
  let w := initial (fixed_db [row]) tt in
  exists result : JsObject,
    Job.get (JNum 1) w
    = (inr result,
       Build_World (fixed_db [row]) tt
         (sent w ++ [(Job.get_sql, [JNum 1]);
                     (Job.get_company_sql, [get_prop row "companyHandle"])]))
    /\ has_prop result "companyHandle" = false
    /\ get_prop result "company" = JObj row
    /\ forall k : string,
         k ≠ "companyHandle" -> k ≠ "company" -> get_prop result k = get_prop row k.
Proof.
  exact (X10_job_get_nests_the_company
           (fixed_db [[("id", JNum 1); ("title", JStr "test1");
                       ("companyHandle", JStr "c1")]]) (JNum 1)
           (initial (fixed_db [[("id", JNum 1); ("title", JStr "test1");
                                ("companyHandle", JStr "c1")]]) tt)
           [("id", JNum 1); ("title", JStr "test1"); ("companyHandle", JStr "c1")] []
           [[("id", JNum 1); ("title", JStr "test1"); ("companyHandle", JStr "c1")]]
           tt tt eq_refl eq_refl).
Defined.

(** X11: on a non-empty partial-data object the answer of storage to the
    one UPDATE decides what an update returns: the first row when there is
    one, the not-found error when there is none, and the failure of storage
    when it fails. *)
Theorem X11_update_returns_the_first_row
    (db : Db) (ident : JsVal) (data : JsObject) (w : World db) :
  data ≠ [] ->
  (let text := Company.update_sql
                 (join ", " (imap (assignment Company.jsToSql) (Object_keys data)))
                 ("$" +:+ pretty (length data + 1)) in
   (Company.update ident data w).1
   = match (run_query db text (Object_values data ++ [ident]) (store w)).1 with
     | inl e => inl e
     | inr [] => inl (NotFoundError (JStr ("No company: " +:+ to_string ident)))
     | inr (row :: _) => inr row
     end)
  /\ (let text := Job.update_sql (join ", " (imap (assignment ∅) (Object_keys data)))
                    ("$" +:+ pretty (length data + 1)) in
      (Job.update ident data w).1
      = match (run_query db text (Object_values data ++ [ident]) (store w)).1 with
        | inl e => inl e
        | inr [] => inl (NotFoundError (JStr ("Job not found: " +:+ to_string ident)))
        | inr (row :: _) => inr row
        end).
Proof.
  intros Hne. split; cbv zeta.
  - unfold Company.update.
    rewrite (sqlForPartialUpdate_nonempty data _ Hne), bind_lift_inr. cbv zeta.
    rewrite bind_db_query. simpl setCols. simpl values. rewrite length_Object_values.
    destruct (run_query db _ _ (store w)) as [[e | [| row rows]] s]; reflexivity.
  - unfold Job.update.
    rewrite (sqlForPartialUpdate_nonempty data _ Hne), bind_lift_inr. cbv zeta.
    rewrite bind_db_query. simpl setCols. simpl values. rewrite length_Object_values.
    destruct (run_query db _ _ (store w)) as [[e | [| row rows]] s]; reflexivity.
Qed.

Lemma X11_update_returns_the_first_row_witness :
  let row := [("id", JNum 1); ("title", JStr "Updated")] in
  let w := initial (fixed_db [row; row]) tt in
  [("title", JStr "Updated")] ≠ []
  /\ (Job.update (JNum 1) [("title", JStr "Updated")] w).1 = inr row.
Proof.
  split; [discriminate |].
  exact (proj2 (X11_update_returns_the_first_row
                  (fixed_db [[("id", JNum 1); ("title", JStr "Updated")];
                             [("id", JNum 1); ("title", JStr "Updated")]])
                  (JNum 1) [("title", JStr "Updated")]
                  (initial (fixed_db [[("id", JNum 1); ("title", JStr "Updated")];
                                      [("id", JNum 1); ("title", JStr "Updated")]]) tt)
                  ltac:(discriminate))).
Defined.

(** X12: a creation returns the first row the INSERT answers with, and
    [undefined], without failing, when the INSERT answers with no row.
    [Job.create] sends the INSERT alone, bound to title, salary, equity and
    company handle in that order; [Company.create] sends it after a lookup
    that found no row, bound to handle, name, description, number of
    employees and logo in that order. *)
Theorem X12_create_returns_the_inserted_row
    (db : Db) (w : World db) (rows : list JsObject) (s1 s2 : storage db) :
  (forall title salary equity companyHandle : JsVal,
      run_query db Job.insert_sql [title; salary; equity; companyHandle] (store w)
      = (inr rows, s2) ->
      Job.create title salary equity companyHandle w
      = (inr (match rows with row :: _ => JObj row | [] => JUndefined end),
         {| store := s2;
            sent := sent w ++ [(Job.insert_sql,
                                [title; salary; equity; companyHandle])] |}))
  /\ (forall handle name description numEmployees logoUrl : JsVal,
        run_query db Company.duplicate_check_sql [handle] (store w) = (inr [], s1) ->
        run_query db Company.insert_sql
          [handle; name; description; numEmployees; logoUrl] s1 = (inr rows, s2) ->
        (Company.create handle name description numEmployees logoUrl w).1
        = inr (match rows with row :: _ => JObj row | [] => JUndefined end)).
Proof.
  split.
  - intros title salary equity companyHandle H. unfold Job.create.
    rewrite bind_db_query, H. destruct rows; reflexivity.
  - intros handle name description numEmployees logoUrl H1 H2. unfold Company.create.
    rewrite bind_db_query, H1. rewrite lookup_nil. rewrite bind_db_query.
    simpl store. rewrite H2. destruct rows; reflexivity.
Qed.

(** X13: a removal sends the one DELETE bound to the identifier; it
    succeeds, returning nothing, exactly when storage answers with a row. *)
Theorem X13_remove_succeeds_iff_a_row_was_deleted
    (db : Db) (ident : JsVal) (w : World db) (rows : list JsObject) (s : storage db) :
  (run_query db Company.remove_sql [ident] (store w) = (inr rows, s) ->
   sent (Company.remove ident w).2 = sent w ++ [(Company.remove_sql, [ident])]
   /\ ((Company.remove ident w).1 = inr tt <-> rows ≠ []))
  /\ (run_query db Job.remove_sql [ident] (store w) = (inr rows, s) ->
      sent (Job.remove ident w).2 = sent w ++ [(Job.remove_sql, [ident])]
      /\ ((Job.remove ident w).1 = inr tt <-> rows ≠ [])).
Proof.
  split; intros H.
  - unfold Company.remove. rewrite bind_db_query, H.
    destruct rows as [| row rows]; simpl; (split; [reflexivity |]); split;
      congruence.
  - unfold Job.remove. rewrite bind_db_query, H.
    destruct rows as [| row rows]; simpl; (split; [reflexivity |]); split;
      congruence.
Qed.

(** * Further properties of the jobs routes *)

(** ** The verdict of the validation *)

Lemma filter_eq_nil_iff {A : Type} (P : A -> Prop) `{forall x, Decision (P x)}
    (l : list A) :
  filter P l = [] <-> forall x : A, x ∈ l -> ~ P x.
Proof.
  split.
  - intros E x Hx HP. exact (filter_nil_not_elem_of P l x E HP Hx).
  - intros Hall. induction l as [| x l IH]; [reflexivity |].
    rewrite filter_cons. destruct (decide (P x)) as [HP | HP].
    + exfalso. apply (Hall x); [left | exact HP].
    + apply IH. intros y Hy. apply Hall. right. exact Hy.
Qed.

Lemma has_prop_iff_elem (o : JsObject) (k : string) :
  has_prop o k = true <-> k ∈ Object_keys o.
Proof.
  split; [apply has_prop_elem |].
  intros Hin. unfold has_prop. apply existsb_exists. exists k.
  split; [apply list_elem_of_In; exact Hin | apply String.eqb_refl].
Qed.

(** An instance passes exactly when it has every required field, every
    known field it has passes its test, and, where unknown fields are
    rejected, it has none. *)
Lemma validate_valid_iff (o : JsObject) (schema : Schema) :
  valid (validate o schema) = true
  <-> (forall k : string, k ∈ required schema -> has_prop o k = true)
      /\ (forall (k : string) (test : JsVal -> bool),
            (k, test) ∈ properties schema ->
            has_prop o k = true -> test (get_prop o k) = true)
      /\ (additionalProperties schema = false ->
          forall k : string,
            has_prop o k = true -> known_property schema k = true).
Proof.
  unfold validate. cbv zeta. simpl valid.
  rewrite Nat.eqb_eq, length_zero_iff_nil, !app_nil.
  split.
  - intros (Hmiss & Hinv & Hunk).
    apply fmap_nil_inv in Hmiss. apply fmap_nil_inv in Hinv.
    rewrite filter_eq_nil_iff in Hmiss. rewrite filter_eq_nil_iff in Hinv.
    split; [| split].
    + intros k Hk. specialize (Hmiss k Hk).
      destruct (has_prop o k); [reflexivity | contradiction].
    + intros k test Hk Hhas. specialize (Hinv (k, test) Hk). simpl in Hinv.
      destruct (test (get_prop o k)); [reflexivity |].
      exfalso. apply Hinv. split; [exact Hhas | reflexivity].
    + intros Hadd k Hhas. rewrite Hadd in Hunk. apply fmap_nil_inv in Hunk.
      rewrite filter_eq_nil_iff in Hunk.
      specialize (Hunk k (has_prop_elem o k Hhas)).
      destruct (known_property schema k); [reflexivity | contradiction].
  - intros (Hreq & Hprops & Hadd). split; [| split].
    + assert (E : filter (fun k => has_prop o k = false) (required schema) = []).
      { apply filter_eq_nil_iff. intros k Hk Hno.
        rewrite (Hreq k Hk) in Hno. discriminate. }
      rewrite E. reflexivity.
    + assert (E : filter (fun p : string * (JsVal -> bool) =>
                            has_prop o p.1 = true /\ p.2 (get_prop o p.1) = false)
                    (properties schema) = []).
      { apply filter_eq_nil_iff. intros [k test] Hk [Hhas Hno]. simpl in *.
        rewrite (Hprops k test Hk Hhas) in Hno. discriminate. }
      rewrite E. reflexivity.
    + destruct (additionalProperties schema); [reflexivity |].
      assert (E : filter (fun k => known_property schema k = false)
                    (Object_keys o) = []).
      { apply filter_eq_nil_iff. intros k Hk Hno.
        rewrite (Hadd eq_refl k) in Hno; [discriminate |].
        apply has_prop_iff_elem. exact Hk. }
      rewrite E. reflexivity.
Qed.

Lemma known_field_cases (k : string) (names : list string) :
  existsb (String.eqb k) names = true <-> k ∈ names.
Proof.
  rewrite existsb_exists. split.
  - intros (x & Hin & Heq). apply String.eqb_eq in Heq. subst x.
    apply list_elem_of_In. exact Hin.
  - intros Hin. exists k. split; [apply list_elem_of_In; exact Hin | apply String.eqb_refl].
Qed.

(** A body passes [schemas/jobNew.json] exactly when it meets what the
    schema asks field by field. *)
Lemma jobNewSchema_valid_iff (o : JsObject) :
  valid (validate o jobNewSchema) = true <-> meets_jobNew o.
Proof.
  rewrite validate_valid_iff. unfold meets_jobNew. simpl. split.
  - intros (Hreq & Hprops & Hadd).
    assert (Ht : has_prop o "title" = true) by (apply Hreq; set_solver).
    assert (Hc : has_prop o "companyHandle" = true) by (apply Hreq; set_solver).
    split; [exact Ht |]. split; [exact Hc |].
    split; [apply (Hprops "title" title_schema); [set_solver | exact Ht] |].
    split; [apply (Hprops "companyHandle" companyHandle_schema);
            [set_solver | exact Hc] |].
    split; [apply (Hprops "salary" salary_schema); set_solver |].
    split; [apply (Hprops "equity" equity_schema); set_solver |].
    intros k Hk. specialize (Hadd eq_refl k Hk).
    unfold known_property in Hadd. apply orb_true_iff in Hadd as [Hadd | Hadd];
      [| tauto].
    apply (known_field_cases k ["companyHandle"; "salary"; "title"; "equity"]) in Hadd.
    repeat (apply elem_of_cons in Hadd as [-> | Hadd]; [tauto |]).
    apply elem_of_nil in Hadd. contradiction.
  - intros (Ht & Hc & Htt & Hct & Hs & He & Hk). split; [| split].
    + intros k Hin. apply elem_of_cons in Hin as [-> | Hin]; [exact Ht |].
      apply elem_of_cons in Hin as [-> | Hin]; [exact Hc |].
      apply elem_of_nil in Hin. contradiction.
    + intros k test Hin Hhas.
      repeat (apply elem_of_cons in Hin as [Heq | Hin];
              [injection Heq as -> ->; auto |]).
      apply elem_of_nil in Hin. contradiction.
    + intros _ k Hhas. unfold known_property.
      destruct (Hk k Hhas) as [-> | [-> | [-> | [-> | Hi]]]]; try reflexivity.
      rewrite Hi. apply orb_true_r.
Qed.

Lemma bind_assoc_run {db : Db} {A B C : Type}
    (m : M db A) (f : A -> M db B) (g : B -> M db C) (w : World db) :
  ((m ≫= f) ≫= g) w = (m ≫= fun a => f a ≫= g) w.
Proof. unfold mbind, M_bind. destruct (m w) as [[e | a] w']; reflexivity. Qed.

Lemma bind_ret_sent {db : Db} {A B : Type} (m : M db A) (f : A -> B) (w : World db) :
  sent ((m ≫= fun a => mret (f a)) w).2 = sent (m w).2.
Proof. unfold mbind, M_bind. destruct (m w) as [[e | a] w']; reflexivity. Qed.

(** X14: POST /jobs, once the admin check lets the request through.  A
    body that does not meet the job-create schema is answered with the
    bad-request error that carries the validation messages, and nothing is
    sent to storage.  A body that meets it sends the one INSERT, bound to
    the body's title, salary, equity and companyHandle in that order (an
    optional field that is missing is bound as [undefined]), and is answered
    with status 201 and the first row that storage returns. *)
Theorem X14_post_validates_then_inserts
    (db : Db) (ensureIsAdmin : Request -> option error) (req : Request) (w : World db) :
  ensureIsAdmin req = None ->
  (~ meets_jobNew (body req) ->
   exists msgs : list JsVal,
     msgs ≠ []
     /\ JobsRoutes.post ensureIsAdmin req w = (inl (BadRequestError (JArr msgs)), w))
  /\ (meets_jobNew (body req) ->
      forall (rows : list JsObject) (s : storage db),
        run_query db Job.insert_sql
          [get_prop (body req) "title"; get_prop (body req) "salary";
           get_prop (body req) "equity"; get_prop (body req) "companyHandle"]
          (store w) = (inr rows, s) ->
        JobsRoutes.post ensureIsAdmin req w
        = (inr {| status := 201;
                  json := JObj [("job", match rows with
                                        | row :: _ => JObj row
                                        | [] => JUndefined
                                        end)] |},
           {| store := s;
              sent := sent w
                      ++ [(Job.insert_sql,
                           [get_prop (body req) "title"; get_prop (body req) "salary";
                            get_prop (body req) "equity";
                            get_prop (body req) "companyHandle"])] |})).
Proof.
  intros Hadmin. unfold JobsRoutes.post. rewrite Hadmin. cbv zeta. split.
  - intros Hbad.
    destruct (valid (validate (body req) jobNewSchema)) eqn:Hv.
    { exfalso. apply Hbad. apply jobNewSchema_valid_iff. exact Hv. }
    simpl negb. cbv iota.
    exists (JStr <$> errors (validate (body req) jobNewSchema)).
    split; [| reflexivity].
    intros E. apply fmap_nil_inv in E.
    unfold validate in Hv, E. cbv zeta in Hv, E. simpl valid in Hv. simpl errors in E.
    rewrite E in Hv. discriminate.
  - intros Hok rows s Hq.
    apply jobNewSchema_valid_iff in Hok. rewrite Hok.
    change (negb true) with false. cbv iota.
    unfold Job.create. rewrite bind_assoc_run, bind_db_query, Hq.
    destruct rows; reflexivity.
Qed.

Lemma X14_post_validates_then_inserts_witness :
  let req := {| headers := []; params_id := JUndefined;
                body := [("title", JStr "new"); ("salary", JNum 10)] |} in
  let w := initial (fixed_db []) tt in
  exists msgs : list JsVal,
    msgs ≠ []
    /\ JobsRoutes.post (fun _ => None) req w = (inl (BadRequestError (JArr msgs)), w).
Proof.
  apply (X14_post_validates_then_inserts (fixed_db []) (fun _ => None)
           {| headers := []; params_id := JUndefined;
              body := [("title", JStr "new"); ("salary", JNum 10)] |}
           (initial (fixed_db []) tt) eq_refl).
  intros (_ & Hc & _). discriminate.
Defined.

(** X15: what PATCH /jobs/:id lets through to storage.  Whatever the
    request, either it sends nothing, or its body is not empty, every field
    of the body is title, salary, equity or the name of a member that every
    object inherits, and the one statement sent is the UPDATE built from
    exactly the fields of the body, bound to their values followed by the
    identifier of the path.  The inherited names do get through: the body
    with the one field [toString] passes the validation, and the UPDATE sent
    quotes the inherited function as the column.  An empty body passes the
    schema and is refused by the builder with its bad-request error, nothing
    being sent. *)
Theorem X15_patch_sends_only_fields_the_schema_knows
    (db : Db) (ensureIsAdmin : Request -> option error) (req : Request) (w : World db) :
  (sent (JobsRoutes.patch ensureIsAdmin req w).2 = sent w
   \/ (body req ≠ []
       /\ (forall k : string,
             k ∈ Object_keys (body req) ->
             k = "title" \/ k = "salary" \/ k = "equity" \/ inherited k = true)
       /\ sent (JobsRoutes.patch ensureIsAdmin req w).2
          = sent w
            ++ [(Job.update_sql
                   (join ", " (imap (assignment ∅) (Object_keys (body req))))
                   ("$" +:+ pretty (length (body req) + 1)),
                 Object_values (body req) ++ [params_id req])]))
  /\ (ensureIsAdmin req = None -> body req = [("toString", JStr "x")] ->
      sent (JobsRoutes.patch ensureIsAdmin req w).2
      = sent w
        ++ [(Job.update_sql
               (dq +:+ "function toString() { [native code] }" +:+ dq +:+ "=$1") "$2",
             [JStr "x"; params_id req])])
  /\ (ensureIsAdmin req = None -> body req = [] ->
      JobsRoutes.patch ensureIsAdmin req w
      = (inl (BadRequestError (JStr "No data")), w)).
Proof.
  split; [| split].
  - unfold JobsRoutes.patch. destruct (ensureIsAdmin req) as [err |]; [left; reflexivity |].
    cbv zeta. destruct (valid (validate (body req) jobUpdateSchema)) eqn:Hv;
      [| left; reflexivity].
    change (negb true) with false. cbv iota.
    destruct (body req) as [| p rest] eqn:Hbody; [left; reflexivity |].
    right. split; [discriminate |]. split.
    + intros k Hk. apply validate_valid_iff in Hv as (_ & _ & Hadd).
      apply has_prop_iff_elem in Hk. specialize (Hadd eq_refl k Hk).
      unfold known_property in Hadd. apply orb_true_iff in Hadd as [Hadd | Hadd];
        [| tauto].
      apply (known_field_cases k ["title"; "salary"; "equity"]) in Hadd.
      repeat (apply elem_of_cons in Hadd as [-> | Hadd]; [tauto |]).
      apply elem_of_nil in Hadd. contradiction.
    + rewrite bind_ret_sent. rewrite Job_update_sent by discriminate.
      rewrite length_Object_values. reflexivity.
  - intros Hadmin Hbody. unfold JobsRoutes.patch. rewrite Hadmin, Hbody. cbv zeta.
    change (valid (validate [("toString", JStr "x")] jobUpdateSchema)) with true.
    change (negb true) with false. cbv iota.
    rewrite bind_ret_sent. rewrite Job_update_sent by discriminate. reflexivity.
  - intros Hadmin Hbody. unfold JobsRoutes.patch. rewrite Hadmin, Hbody. reflexivity.
Qed.

(** X16: DELETE /jobs/:id.  A request that the admin check refuses is
    handed on with the error of the check and sends nothing.  One that it
    lets through sends the one DELETE bound to the identifier of the path;
    when storage answers with a row the response is status 200 with that
    identifier under [deleted], and when it answers with none the not-found
    error is handed on. *)
Theorem X16_delete_route_outcomes
    (db : Db) (ensureIsAdmin : Request -> option error) (req : Request) (w : World db) :
  (forall err : error,
      ensureIsAdmin req = Some err ->
      JobsRoutes.delete ensureIsAdmin req w = (inl err, w))
  /\ (ensureIsAdmin req = None ->
      forall (rows : list JsObject) (s : storage db),
        run_query db Job.remove_sql [params_id req] (store w) = (inr rows, s) ->
        JobsRoutes.delete ensureIsAdmin req w
        = (match rows with
           | [] => inl (NotFoundError (JStr ("No job: " +:+ to_string (params_id req))))
           | _ :: _ =>
               inr {| status := 200; json := JObj [("deleted", params_id req)] |}
           end,
           {| store := s; sent := sent w ++ [(Job.remove_sql, [params_id req])] |})).
Proof.
  split.
  - intros err Herr. unfold JobsRoutes.delete. rewrite Herr. reflexivity.
  - intros Hadmin rows s Hq. unfold JobsRoutes.delete. rewrite Hadmin.
    unfold Job.remove. rewrite bind_assoc_run, bind_db_query, Hq.
    destruct rows; reflexivity.
Qed.

(** * The columns the two updates assign *)

Lemma fragment_of_field (data : JsObject) (t : gmap string JsVal)
    (i : nat) (field : string) (v : JsVal) :
  data !! i = Some (field, v) ->
  imap (assignment t) (Object_keys data) !! i = Some (assignment t i field).
Proof.
  intros Hi. rewrite list_lookup_imap. unfold Object_keys.
  rewrite list_lookup_fmap, Hi. reflexivity.
Qed.

Lemma inherited_truthy (k : string) :
  inherited k = true -> truthy (get_prop Object_prototype k) = true.
Proof.
  unfold inherited, Object_prototype. cbn [get_prop].
  repeat (destruct (String.eqb _ k); [intros _; reflexivity |]). discriminate.
Qed.

Lemma column_of_field (t : gmap string JsVal) (field : string) :
  t !! field = None ->
  to_string (js_or (table_get t field) (JStr field))
  = if inherited field then to_string (get_prop Object_prototype field) else field.
Proof.
  intros Ht. destruct (inherited field) eqn:Hi.
  - unfold table_get, js_or. rewrite Ht, (inherited_truthy field Hi). reflexivity.
  - apply column_absent; assumption.
Qed.

(** X17: the column names of the two updates.  [Company.update] writes
    the field [numEmployees] to the column [num_employees] and the field
    [logoUrl] to the column [logo_url]; [Job.update] has no such entry.
    Every other field is written to the column of its own name, unless the
    name is that of a member every object inherits: then the column is that
    member as printed. *)
Theorem X17_update_column_names
    (data : JsObject) (i : nat) (field : string) (v : JsVal) :
  data !! i = Some (field, v) ->
  exists ccols jcols : list string,
    sqlForPartialUpdate data Company.jsToSql
    = inr {| setCols := join ", " ccols; values := Object_values data |}
    /\ ccols !! i
       = Some (dq +:+ (if String.eqb field "numEmployees" then "num_employees"
                       else if String.eqb field "logoUrl" then "logo_url"
                       else if inherited field
                            then to_string (get_prop Object_prototype field)
                            else field)
                  +:+ dq +:+ "=$" +:+ pretty (i + 1))
    /\ sqlForPartialUpdate data ∅
       = inr {| setCols := join ", " jcols; values := Object_values data |}
    /\ jcols !! i
       = Some (dq +:+ (if inherited field
                       then to_string (get_prop Object_prototype field)
                       else field)
                  +:+ dq +:+ "=$" +:+ pretty (i + 1)).
Proof.
  intros Hi.
  assert (Hne : data ≠ []) by (intros ->; discriminate).
  exists (imap (assignment Company.jsToSql) (Object_keys data)),
    (imap (assignment ∅) (Object_keys data)).
  split; [apply sqlForPartialUpdate_nonempty; exact Hne |].
  split; [| split; [apply sqlForPartialUpdate_nonempty; exact Hne |]].
  - rewrite (fragment_of_field data _ i field v Hi). unfold assignment.
    destruct (String.eqb_spec field "numEmployees") as [-> | Hn]; [reflexivity |].
    destruct (String.eqb_spec field "logoUrl") as [-> | Hl]; [reflexivity |].
    rewrite column_of_field; [reflexivity |].
    unfold Company.jsToSql. rewrite !lookup_insert_ne by congruence.
    apply lookup_empty.
  - rewrite (fragment_of_field data _ i field v Hi). unfold assignment.
    rewrite column_of_field; [reflexivity | apply lookup_empty].
Qed.

Lemma X17_update_column_names_witness :
  let data := [("name", JStr "New"); ("numEmployees", JNum 10)] in
  exists ccols jcols : list string,
    sqlForPartialUpdate data Company.jsToSql
    = inr {| setCols := join ", " ccols; values := Object_values data |}
    /\ ccols !! 1%nat = Some (dq +:+ "num_employees" +:+ dq +:+ "=$2")
    /\ sqlForPartialUpdate data ∅
       = inr {| setCols := join ", " jcols; values := Object_values data |}
    /\ jcols !! 1%nat = Some (dq +:+ "numEmployees" +:+ dq +:+ "=$2").
Proof.
  exact (X17_update_column_names [("name", JStr "New"); ("numEmployees", JNum 10)]
           1 "numEmployees" (JNum 10) eq_refl).
Defined.
